(** * Face-liveness web service: the request handler of MIServer.cpp

    A shallow embedding of [SfTServerCmd/MIServer.cpp]: the credential
    ("license") cache [lv_pstRes], the refresh thread [TF_READ_LIC], the
    service start [ClaHTTPServerWrapper::launch] and the processing handler
    [MyRequestHandler::OnProcessProc] with its two-attempt loop around the
    face SDK, followed by the properties of the handler.

    The handler talks to code that is not part of the file: the Poco
    parsers and the JSON stringifier, the face SDK behind [g_hFaceDll], the
    license store behind [mil_read_license] and [setting_init].  Each of
    them is a field of the record [Collaborators]; every call is written
    to the log of the [World], so that a statement can say which calls
    were made, in which order and with which arguments.  The base64
    decoder of the Poco library is also written out, in the module
    [Base64Decoder], for the statement on line breaks in the image
    string. *)

From Stdlib Require Import ZArith String Ascii List PrimFloat DecimalString
  DecimalN Lia.
From stdpp Require Import gmap strings list.
From Equations Require Import Equations.

Local Open Scope Z_scope.
Local Open Scope string_scope.

(** ** C strings *)

Module CString.

(** [tolower] of the "C" locale: only 'A'..'Z' move. *)
Definition tolower (c : ascii) : ascii :=
  let n := N_of_ascii c in
  if ((65 <=? n) && (n <=? 90))%N then ascii_of_N (n + 32) else c.

Definition is_nul (c : ascii) : bool := (N_of_ascii c =? 0)%N.

(** The string a [char] buffer holds: its bytes up to the first NUL. *)
Fixpoint c_str (s : string) : string :=
  match s with
  | EmptyString => EmptyString
  | String c s' => if is_nul c then EmptyString else String c (c_str s')
  end.

Fixpoint lowercase (s : string) : string :=
  match s with
  | EmptyString => EmptyString
  | String c s' => String (tolower c) (lowercase s')
  end.

Definition code (c : ascii) : Z := Z.of_N (N_of_ascii c).

(** [_stricmp]: walk both buffers, compare the lower-cased bytes, stop at
    the first difference or at the terminating NUL; the result is the
    difference of the two bytes that ended the walk. *)
Fixpoint _stricmp (a b : string) : Z :=
  match a, b with
  | EmptyString, EmptyString => 0
  | EmptyString, String d _ => 0 - code (tolower d)
  | String c _, EmptyString => code (tolower c) - 0
  | String c a', String d b' =>
      if (code (tolower c) =? code (tolower d))%Z
      then (if is_nul c then 0 else _stricmp a' b')
      else code (tolower c) - code (tolower d)
  end.

(** [std::string::find(search, pos)]; [None] is [npos]. *)
Fixpoint find (s search : string) (pos : nat) {struct s} : option nat :=
  match pos with
  | S k =>
      match s with
      | EmptyString => None
      | String _ s' => option_map S (find s' search k)
      end
  | O =>
      if String.prefix search s then Some O
      else match s with
           | EmptyString => None
           | String _ s' => option_map S (find s' search O)
           end
  end.

(** [std::string::replace(pos, len, r)] for [pos <= size]. *)
Definition replace (s : string) (pos len : nat) (r : string) : string :=
  String.append (String.substring 0 pos s)
    (String.append r
       (String.substring (pos + len) (String.length s - (pos + len)) s)).

(** The loop of [replaceAll]; it has not ended when the fuel is used up. *)
Fixpoint replaceAll_loop (fuel : nat) (original search replace_ : string)
    (pos : nat) : option string :=
  match fuel with
  | O => None
  | S fuel' =>
      match find original search pos with
      | None => Some original
      | Some p =>
          replaceAll_loop fuel'
            (replace original p (String.length search) replace_)
            search replace_ (p + String.length replace_)
      end
  end.

Definition replaceAll (original search replace_ : string) : option string :=
  replaceAll_loop (S (String.length original)) original search replace_ 0.

Definition CR : ascii := "013"%char.
Definition LF : ascii := "010"%char.
Definition CRLF : string := String CR (String LF EmptyString).

End CString.

Export CString.

(** ** The SDK's C interface (FaceSDK_C_Api.h) *)

Definition MESSAGE_BUFFER_SIZE : Z := 256.

Inductive STATUS :=
| FACE_TOO_CLOSE | FACE_CLOSE_TO_BORDER | FACE_CROPPED | FACE_NOT_FOUND
| TOO_MANY_FACES | FACE_TOO_SMALL | FACE_ANGLE_TOO_LARGE
| FAILED_TO_READ_IMAGE | FAILED_TO_WRITE_IMAGE | FAILED_TO_READ_MODEL
| FAILED_TO_BUILD_INTERPRETER | FAILED_TO_INVOKE_INTERPRETER
| FAILED_TO_ALLOCATE | INVALID_CONFIG | NO_SUCH_OBJECT_IN_BUILD
| FAILED_TO_PREPROCESS_IMAGE_WHILE_PREDICT
| FAILED_TO_PREPROCESS_IMAGE_WHILE_DETECT | FAILED_TO_PREDICT_LANDMARKS
| INVALID_FUSE_MODE | NULLPTR | LICENSE_ERROR | INVALID_META | UNKNOWN
| OK | FACE_IS_OCCLUDED | FAILED_TO_FETCH_COREML_DECRYPTION_KEY | EYES_CLOSED.

(** The value of an enumerator: its position in the declaration. *)
Definition STATUS_value (s : STATUS) : Z :=
  match s with
  | FACE_TOO_CLOSE => 0 | FACE_CLOSE_TO_BORDER => 1 | FACE_CROPPED => 2
  | FACE_NOT_FOUND => 3 | TOO_MANY_FACES => 4 | FACE_TOO_SMALL => 5
  | FACE_ANGLE_TOO_LARGE => 6 | FAILED_TO_READ_IMAGE => 7
  | FAILED_TO_WRITE_IMAGE => 8 | FAILED_TO_READ_MODEL => 9
  | FAILED_TO_BUILD_INTERPRETER => 10 | FAILED_TO_INVOKE_INTERPRETER => 11
  | FAILED_TO_ALLOCATE => 12 | INVALID_CONFIG => 13
  | NO_SUCH_OBJECT_IN_BUILD => 14
  | FAILED_TO_PREPROCESS_IMAGE_WHILE_PREDICT => 15
  | FAILED_TO_PREPROCESS_IMAGE_WHILE_DETECT => 16
  | FAILED_TO_PREDICT_LANDMARKS => 17 | INVALID_FUSE_MODE => 18
  | NULLPTR => 19 | LICENSE_ERROR => 20 | INVALID_META => 21 | UNKNOWN => 22
  | OK => 23 | FACE_IS_OCCLUDED => 24
  | FAILED_TO_FETCH_COREML_DECRYPTION_KEY => 25 | EYES_CLOSED => 26
  end.

(** A C [float] is read here through its promotion to [double], which is
    exact; the comparisons of the handler are made on that [double]. *)
Record CQualityResult_t := {
  q_score : float;
  q_class_ : bool;
  q_ok : bool
}.

Record CLivenessResult_t := {
  l_score : float;
  l_probability : float;
  l_ok : bool
}.

Record CPipelineResult_t := {
  quality_result : CQualityResult_t;
  liveness_result : CLivenessResult_t
}.

(** Pointers to the SDK's opaque structures; 0 is NULL. *)
Definition CPipeline_t := nat.
Definition CImage_t := nat.

(** What a C call leaves in the caller's [err] and [msg]: [None] when it
    does not write the variable. *)
Record OutParams := {
  out_err : option Z;
  out_msg : option string
}.

(** ** Exceptions *)

(** The handler's [catch] clauses name [Exception], the root class of the
    Poco library; an exception of any other class passes through them. *)
Inductive exception :=
| PocoException (displayText : string)
| OtherException (what : string).

Inductive outcome (A : Type) :=
| Returns (a : A)
| Throws (e : exception).
Arguments Returns {A} a.
Arguments Throws {A} e.

(** ** The response and the JSON object *)

Inductive JValue :=
| JNumber (x : float)
| JString (s : string).

Record Response := {
  status : Z;
  contentType : string;
  contentLength : option nat;
  headers : list (string * string);
  body : string
}.

Definition HTTP_OK : Z := 200.
Definition HTTP_CONFLICT : Z := 409.

(** The three [response.set] calls every handler makes. *)
Definition cors_headers : list (string * string) :=
  [ ("Access-Control-Allow-Origin", "*");
    ("Access-Control-Allow-Methods", "GET, POST, PUT, DELETE, OPTIONS");
    ("Access-Control-Allow-Headers", "Content-Type, Authorization") ].

(** ** The world the handler runs in *)

(** [ST_RESPONSE] is declared in licenseproc.h, which is not among the
    sources; these are the fields the file reads or writes. *)
Record ST_RESPONSE := {
  m_nProduct : Z;
  m_lExpire : Z
}.

Inductive Event :=
| EvMultipart (body : string)
| EvJsonImage (body : string)
| EvBase64Decode (encoded : string)
| EvWriteFile (path data : string)
| EvImageCreatePath (path : string)
| EvCheckLiveness (engine : CPipeline_t) (image : CImage_t)
| EvImageDestroy (image : CImage_t)
| EvPipelineDestroy (engine : CPipeline_t)
| EvSettingInit (flag : Z)
| EvStringify (root : gmap string JValue)
| EvRemove (path : string)
| EvReadLicense (product : Z)
| EvCreateThread
| EvSleep (ms : Z)
| EvRun.

Record World := {
  lv_pstRes : option ST_RESPONSE;   (* NULL is None *)
  g_pPipeline : CPipeline_t;
  files : gmap string string;
  log : list Event
}.

Definition log_event (e : Event) (w : World) : World :=
  {| lv_pstRes := lv_pstRes w; g_pPipeline := g_pPipeline w;
     files := files w; log := log w ++ [e] |}.

Definition set_pipeline (h : CPipeline_t) (w : World) : World :=
  {| lv_pstRes := lv_pstRes w; g_pPipeline := h;
     files := files w; log := log w |}.

Definition set_files (f : gmap string string) (w : World) : World :=
  {| lv_pstRes := lv_pstRes w; g_pPipeline := g_pPipeline w;
     files := f; log := log w |}.

Definition set_license (l : option ST_RESPONSE) (w : World) : World :=
  {| lv_pstRes := l; g_pPipeline := g_pPipeline w;
     files := files w; log := log w |}.

(** ** State and exceptions *)

Definition M (A : Type) : Type := World -> outcome A * World.

Definition ret {A} (a : A) : M A := fun w => (Returns a, w).

Definition bind {A B} (m : M A) (k : A -> M B) : M B :=
  fun w =>
    match m w with
    | (Returns a, w') => k a w'
    | (Throws e, w') => (Throws e, w')
    end.

Notation "'let*' x ':=' m 'in' k" := (bind m (fun x => k))
  (at level 10, x name, m at level 100, k at level 200).

(** [try { body } catch (const Exception& ex) { handler(ex.displayText()) }] *)
Definition try_catch_Exception {A} (body : M A) (handler : string -> M A)
    : M A :=
  fun w =>
    match body w with
    | (Returns a, w') => (Returns a, w')
    | (Throws (PocoException text), w') => handler text w'
    | (Throws (OtherException what), w') => (Throws (OtherException what), w')
    end.

(** A call out of the file: logged, and answered by the collaborator. *)
Definition call {A} (e : Event) (answer : outcome A) : M A :=
  fun w => (answer, log_event e w).

(** ** Poco::Base64Decoder *)

(** The stream the handler reads the image through (line 153), built
    with the default options.  It belongs to the POCO library and is not
    part of src/; the module follows the library's stream buffer
    [Base64DecoderBuf] of Foundation/src/Base64Decoder.cpp, function by
    function.  The handler drains the stream with
    [std::istreambuf_iterator], which reads the buffer directly, so an
    exception of [readFromDevice] leaves the constructor of the vector. *)
Module Base64Decoder.

(** [Base64EncoderBuf::OUT_ENCODING]. *)
Definition OUT_ENCODING : string :=
  "ABCDEFGHIJKLMNOPQRSTUVWXYZabcdefghijklmnopqrstuvwxyz0123456789+/".

Fixpoint position (ch : ascii) (table : string) (i : Z) : Z :=
  match table with
  | EmptyString => 0xFF
  | String c table' => if Ascii.eqb c ch then i else position ch table' (i + 1)
  end.

(** [IN_ENCODING] as the constructor fills it: 0xFF everywhere, then
    [IN_ENCODING[OUT_ENCODING[i]] = i], then 0 for the padding '='. *)
Definition IN_ENCODING (ch : ascii) : Z :=
  if Ascii.eqb ch "=" then 0 else position ch OUT_ENCODING 0.

Definition TAB : ascii := "009"%char.

(** The characters the [while] of [readOne] passes over. *)
Definition skipped (ch : ascii) : bool :=
  Ascii.eqb ch " " || Ascii.eqb ch CR || Ascii.eqb ch TAB || Ascii.eqb ch LF.

(** [readOne]: [sbumpc] until a character that is not skipped; the
    character and what is left of the input, or [None] for the -1 at the
    end of the input. *)
Fixpoint readOne (buf : string) : option ascii * string :=
  match buf with
  | EmptyString => (None, EmptyString)
  | String ch rest => if skipped ch then readOne rest else (Some ch, rest)
  end.

(** An assignment to an [unsigned char]. *)
Definition UInt8 (n : Z) : ascii := ascii_of_N (Z.to_N (Z.land n 0xFF)).

(** [_group] and [_groupLength] for the four characters of [buffer]. *)
Definition group_of (b0 b1 b2 b3 : ascii) : string :=
  let e0 := IN_ENCODING b0 in
  let e1 := IN_ENCODING b1 in
  let e2 := IN_ENCODING b2 in
  let e3 := IN_ENCODING b3 in
  let g0 := UInt8 (Z.lor (Z.shiftl e0 2) (Z.shiftr e1 4)) in
  let g1 := UInt8 (Z.lor (Z.shiftl (Z.land e1 0x0F) 4) (Z.shiftr e2 2)) in
  let g2 := UInt8 (Z.lor (Z.shiftl e2 6) e3) in
  if Ascii.eqb b2 "=" then String g0 EmptyString
  else if Ascii.eqb b3 "=" then String g0 (String g1 EmptyString)
  else String g0 (String g1 (String g2 EmptyString)).

(** What [readFromDevice] does when the last group is used up: the end
    of the stream (-1), a [DataFormatException], or the bytes of the next
    group, which the following calls hand out one by one. *)
Inductive Read :=
| Eof
| DataFormat
| Group (group : string) (rest : string).

Definition readFromDevice (buf : string) : Read :=
  match readOne buf with
  | (None, _) => Eof
  | (Some b0, buf) =>
  if (IN_ENCODING b0 =? 0xFF)%Z then DataFormat else
  match readOne buf with
  | (None, _) => Eof
  | (Some b1, buf) =>
  if (IN_ENCODING b1 =? 0xFF)%Z then DataFormat else
  match readOne buf with
  | (None, _) => DataFormat
  | (Some b2, buf) =>
  if (IN_ENCODING b2 =? 0xFF)%Z then DataFormat else
  match readOne buf with
  | (None, _) => DataFormat
  | (Some b3, buf) =>
  if (IN_ENCODING b3 =? 0xFF)%Z then DataFormat else
  Group (group_of b0 b1 b2 b3) buf
  end end end end.

Definition inspect {A} (a : A) : {b | a = b} := exist _ a eq_refl.

(** The stream read to its end, as the handler does at line 154: the
    bytes, or the exception ([DataFormatException] shows as "Bad data
    format"). *)
Equations decode (buf : string) : outcome string
  by wf (String.length buf) lt :=
  decode buf with inspect (readFromDevice buf) := {
    | exist _ Eof _ => Returns EmptyString;
    | exist _ DataFormat _ => Throws (PocoException "Bad data format");
    | exist _ (Group group rest) H with decode rest := {
        | Returns bytes => Returns (String.append group bytes);
        | Throws e => Throws e } }.
Next Obligation.
  assert (L : forall b c r, readOne b = (Some c, r) ->
                            (String.length r < String.length b)%nat).
  { induction b as [|ch b IH]; simpl; [discriminate|].
    destruct (skipped ch); intros c r E.
    - apply IH in E. lia.
    - inversion E; subst. lia. }
  revert H. unfold readFromDevice.
  destruct (readOne buf) as [[b0|] r0] eqn:E0; [|discriminate].
  destruct (IN_ENCODING b0 =? 255)%Z; [discriminate|].
  destruct (readOne r0) as [[b1|] r1] eqn:E1; [|discriminate].
  destruct (IN_ENCODING b1 =? 255)%Z; [discriminate|].
  destruct (readOne r1) as [[b2|] r2] eqn:E2; [|discriminate].
  destruct (IN_ENCODING b2 =? 255)%Z; [discriminate|].
  destruct (readOne r2) as [[b3|] r3] eqn:E3; [|discriminate].
  destruct (IN_ENCODING b3 =? 255)%Z; [discriminate|].
  intros H. inversion H; subst.
  apply L in E0, E1, E2, E3. lia.
Qed.

(** The characters of the input that [readOne] hands on. *)
Fixpoint symbols (buf : string) : string :=
  match buf with
  | EmptyString => EmptyString
  | String ch rest =>
      if skipped ch then symbols rest else String ch (symbols rest)
  end.

End Base64Decoder.

(** ** The code outside the file *)

Record Collaborators := {
  (* Poco::Net::HTMLForm with MyPartHandler, then hPart.fileData() *)
  multipart_fileData : string -> outcome string;
  (* Parser::parse, extract<Object::Ptr>, getValue<std::string>("image") *)
  json_image : string -> outcome string;
  (* Poco::Base64Decoder read to its end *)
  base64_decode : string -> outcome string;
  (* the SDK entry points; the first argument is the attempt the call
     belongs to, which stands for the state of the engine at that time *)
  image_create_path : Z -> string -> outcome (CImage_t * OutParams);
  pipeline_check_liveness :
    Z -> CPipeline_t -> CImage_t -> outcome (CPipelineResult_t * OutParams);
  image_destroy : Z -> CImage_t -> outcome unit;
  pipeline_destroy : Z -> CPipeline_t -> outcome unit;
  (* setting_init(flag): the pipeline it leaves in g_pPipeline *)
  setting_init : Z -> Z -> outcome CPipeline_t;
  (* Poco::JSON::Stringifier::stringify *)
  stringify : gmap string JValue -> outcome string
}.

(** ** getMilliseconds *)

Inductive Clock :=
| TickCount64 (ticks : Z)                (* WIN64: GetTickCount64() *)
| Monotonic (tv_sec tv_nsec : Z).        (* clock_gettime(CLOCK_MONOTONIC) *)

Definition uint64 (z : Z) : Z := z mod 2 ^ 64.

Definition getMilliseconds (c : Clock) : Z :=
  match c with
  | TickCount64 t => uint64 t
  | Monotonic tv_sec tv_nsec => uint64 (tv_sec * 1000 + Z.quot tv_nsec 1000000)
  end.

(** [std::to_string] of an unsigned value. *)
Definition to_string (z : Z) : string :=
  NilEmpty.string_of_uint (N.to_uint (Z.to_N z)).

(** ** MyRequestHandler *)

(** What one call of the handler reads from its surroundings. *)
Record Invocation := {
  request_body : string;          (* request.stream() *)
  base64 : Z;                     (* the parameter of OnProcessProc *)
  now_c : Z;                      (* system_clock::to_time_t(now()) *)
  clock : Clock;                  (* read by getMilliseconds *)
  msg_uninit : string;            (* msg has no initialiser *)
  result_uninit : CPipelineResult_t  (* nor has result *)
}.

(** The variables of the second [try] block that the attempts change. *)
Record Locals := {
  result : CPipelineResult_t;
  err : Z;
  msg : string
}.

Definition write_out (o : OutParams) (st : Locals) : Locals :=
  {| result := result st;
     err := match out_err o with Some e => e | None => err st end;
     msg := match out_msg o with Some m => m | None => msg st end |}.

Definition set_result (r : CPipelineResult_t) (st : Locals) : Locals :=
  {| result := r; err := err st; msg := msg st |}.

Definition get_pipeline : M CPipeline_t :=
  fun w => (Returns (g_pPipeline w), w).

Definition OnNoLicense : M Response :=
  ret {| status := HTTP_OK; contentType := "text/plain";
         contentLength := None; headers := cors_headers;
         body := "Please input license." |}.

(** The first [try] block: the image bytes of the request. *)
Definition ingest (env : Collaborators) (inv : Invocation) : M string :=
  if (base64 inv =? 0)%Z then
    call (EvMultipart (request_body inv))
         (multipart_fileData env (request_body inv))
  else
    let* encodedImage :=
      call (EvJsonImage (request_body inv))
           (json_image env (request_body inv)) in
    call (EvBase64Decode encodedImage) (base64_decode env encodedImage).

(** [std::ofstream outFile(filePath, std::ios::binary); write; close]. *)
Definition write_file (filePath data : string) : M unit :=
  fun w => (Returns tt,
            log_event (EvWriteFile filePath data)
                      (set_files (<[filePath := data]> (files w)) w)).

(** [std::remove(filePath.c_str())]. *)
Definition remove (filePath : string) : M unit :=
  fun w => (Returns tt,
            log_event (EvRemove filePath)
                      (set_files (delete filePath (files w)) w)).

(** One pass through the body of the [for] loop, up to the comparison. *)
Definition attempt (env : Collaborators) (i : Z) (filePath : string)
    (st : Locals) : M Locals :=
  let* created :=
    call (EvImageCreatePath filePath) (image_create_path env i filePath) in
  let image := fst created in
  let st := write_out (snd created) st in
  let* engine := get_pipeline in
  let* checked :=
    call (EvCheckLiveness engine image)
         (pipeline_check_liveness env i engine image) in
  let st := write_out (snd checked) (set_result (fst checked) st) in
  let* _ := call (EvImageDestroy image) (image_destroy env i image) in
  ret st.

Definition license : string := "License error: license is not installed".

(** Modelled from the spec: [setting_init] is declared in a header that is
    not among the sources; with the force-reset flag it sets the engine
    handle up again, so the call leaves a new pipeline in [g_pPipeline]. *)
Definition call_setting_init (env : Collaborators) (i flag : Z) : M unit :=
  let* fresh := call (EvSettingInit flag) (setting_init env i flag) in
  fun w => (Returns tt, set_pipeline fresh w).

(** [pipeline_destroy(g_pPipeline); setting_init(1);] *)
Definition reset_pipeline (env : Collaborators) (i : Z) : M unit :=
  let* engine := get_pipeline in
  let* _ := call (EvPipelineDestroy engine) (pipeline_destroy env i engine) in
  call_setting_init env i 1.

(** [for (int i = 0; i < 2; i++) { ... }], with [remaining] the number of
    values of [i] still below 2. *)
Fixpoint attempts (env : Collaborators) (filePath : string)
    (remaining : nat) (i : Z) (st : Locals) : M Locals :=
  match remaining with
  | O => ret st
  | S remaining' =>
      let* st := attempt env i filePath st in
      if (_stricmp (msg st) license =? 0)%Z then
        let* _ := reset_pipeline env i in
        attempts env filePath remaining' (i + 1) st
      else ret st
  end.

Definition attempt_loop (env : Collaborators) (filePath : string)
    (st : Locals) : M Locals :=
  attempts env filePath 2 0 st.

Definition bad_quality : string := "Image has a bad quality".
Definition genuine : string := "Image is genuine".
Definition spoofed : string := "Image is spoofed".

(** The JSON object [root], from [new Object] to the ["state "] entry. *)
Definition build_root (st : Locals) : gmap string JValue :=
  let r := result st in
  let root : gmap string JValue := ∅ in
  let root := <["score " := JNumber (l_score (liveness_result r))]> root in
  let root :=
    <["probability " := JNumber (l_probability (liveness_result r))]> root in
  let root := <["quality " := JNumber (q_score (quality_result r))]> root in
  let root :=
    if PrimFloat.ltb (q_score (quality_result r)) 0.5 then
      <["liveness result " := JString bad_quality]> root
    else if PrimFloat.leb 0.5 (l_probability (liveness_result r)) then
      <["liveness result " := JString genuine]> root
    else
      <["liveness result " := JString spoofed]> root in
  if (err st =? STATUS_value OK)%Z then
    <["state " := JString "OK"]> root
  else
    <["state " := JString (c_str (msg st))]> root.

Definition json_response (out : string) : Response :=
  {| status := HTTP_OK; contentType := "application/json";
     contentLength := Some (String.length out); headers := cors_headers;
     body := c_str out |}.

Definition conflict_response (displayText : string) : Response :=
  {| status := HTTP_CONFLICT; contentType := "application/json";
     contentLength := Some (String.length displayText);
     headers := cors_headers; body := displayText |}.

Definition filePath_of (inv : Invocation) : string :=
  to_string (getMilliseconds (clock inv)) +:+ "output_file.dat".

(** The first [try] block with its [catch], then the temporary file. *)
Definition stage (env : Collaborators) (inv : Invocation) : M string :=
  let* FileImage := try_catch_Exception (ingest env inv) (fun _ => ret "") in
  let filePath := filePath_of inv in
  let* _ := write_file filePath FileImage in
  ret filePath.

Definition initial_locals (inv : Invocation) : Locals :=
  {| result := result_uninit inv; err := STATUS_value OK;
     msg := msg_uninit inv |}.

(** The inside of the second [try] block. *)
Definition respond (env : Collaborators) (inv : Invocation)
    (filePath : string) : M Response :=
  let* st := attempt_loop env filePath (initial_locals inv) in
  let root := build_root st in
  let* out := call (EvStringify root) (stringify env root) in
  let* _ := remove filePath in
  ret (json_response out).

(** The second [try] block with its [catch]. *)
Definition process (env : Collaborators) (inv : Invocation)
    (filePath : string) : M Response :=
  try_catch_Exception (respond env inv filePath)
    (fun displayText => ret (conflict_response displayText)).

(** The license test at the head of the handler: [lv_pstRes == NULL ||
    lv_pstRes->m_lExpire < now_c]. *)
Definition no_license (w : World) (inv : Invocation) : bool :=
  match lv_pstRes w with
  | None => true
  | Some r => (m_lExpire r <? now_c inv)%Z
  end.

(** [OnProcessProc]; [ndebug] says whether the file was compiled with
    NDEBUG defined. *)
Definition OnProcessProc (ndebug : bool) (env : Collaborators)
    (inv : Invocation) : M Response :=
  fun w =>
    if ndebug && no_license w inv then OnNoLicense w
    else (let* filePath := stage env inv in process env inv filePath) w.

(** ** The license cache: launch and the refresh thread *)

(** The license store, seen from this file. *)
Record Licensing := {
  GD_PRODUCT_LIVENESS_FACE : Z;
  (* mil_read_license(p): the status it returns and what it leaves in *p *)
  mil_read_license : ST_RESPONSE -> Z * ST_RESPONSE
}.

(** [lv_pstRes] after a read that returned [nSts] and filled [p]. *)
Definition cache_after (nSts : Z) (p : ST_RESPONSE) : option ST_RESPONSE :=
  if (nSts <=? 0)%Z then None else Some p.

(** [ClaHTTPServerWrapper::launch]; [fresh] is what [malloc] returned,
    before any field is written. *)
Definition launch (lic : Licensing) (fresh : ST_RESPONSE) (w : World)
    : World :=
  let w :=
    match lv_pstRes w with
    | None =>
        let p := {| m_nProduct := GD_PRODUCT_LIVENESS_FACE lic;
                    m_lExpire := m_lExpire fresh |} in
        let answer := mil_read_license lic p in
        set_license (cache_after (fst answer) (snd answer))
          (log_event (EvReadLicense (m_nProduct p)) w)
    | Some _ => w
    end in
  log_event EvRun (log_event EvCreateThread w).

(** One turn of the [while (TRUE)] loop of [TF_READ_LIC]. *)
Definition TF_READ_LIC_turn (lic : Licensing) (w : World) : World :=
  let w := log_event (EvSleep (10 * 1000)) w in
  let p := {| m_nProduct := GD_PRODUCT_LIVENESS_FACE lic; m_lExpire := 0 |} in
  let answer := mil_read_license lic p in
  set_license (cache_after (fst answer) (snd answer))
    (log_event (EvReadLicense (m_nProduct p)) w).

(** The first turns of the thread, the store answering as [lics] says. *)
Fixpoint TF_READ_LIC (lics : list Licensing) (w : World) : World :=
  match lics with
  | [] => w
  | lic :: lics' => TF_READ_LIC lics' (TF_READ_LIC_turn lic w)
  end.

(** Requests handled one after the other. *)
Fixpoint serve (ndebug : bool) (reqs : list (Collaborators * Invocation))
    (w : World) : list (outcome Response) * World :=
  match reqs with
  | [] => ([], w)
  | (env, inv) :: reqs' =>
      let (r, w') := OnProcessProc ndebug env inv w in
      let (rs, w'') := serve ndebug reqs' w' in
      (r :: rs, w'')
  end.

(** ** The refresh thread against a handler, statement by statement *)

Module Race.

(** [lv_pstRes] as a pointer into a heap of blocks; a block that [malloc]
    returned and nobody wrote holds [None]; a freed block is absent. *)
Record Shared := {
  ptr : nat;                                   (* lv_pstRes, 0 is NULL *)
  heap : gmap nat (option ST_RESPONSE);
  next : nat                                   (* what malloc returns next *)
}.

(** Where the refresh thread stands in its loop. *)
Inductive WriterPc :=
| WSleep                      (* Sleep(10 * 1000); *)
| WRead                       (* memset(p ..); nSts = mil_read_license(p) *)
| WFree                       (* if (lv_pstRes != NULL) free(lv_pstRes); *)
| WNull                       (* lv_pstRes = NULL; *)
| WAlloc (p : ST_RESPONSE)    (* if (lv_pstRes == NULL) lv_pstRes = malloc *)
| WCopy (p : ST_RESPONSE).    (* memcpy(lv_pstRes, p, sizeof(ST_RESPONSE)) *)

(** Where a handler stands in [lv_pstRes == NULL || lv_pstRes->m_lExpire <
    now_c]; each operand loads the pointer. *)
Inductive ReaderPc :=
| RTestNull                   (* lv_pstRes == NULL *)
| RTestExpire                 (* lv_pstRes->m_lExpire < now_c *)
| RNoLicense                  (* OnNoLicense(request, response); return; *)
| RProceed                    (* the handler goes on to the request *)
| RReadNull                   (* the load went through a NULL pointer *)
| RReadFreed (a : nat)        (* the load hit a block that was freed *)
| RReadUnwritten (a : nat).   (* the load hit a block not yet written *)

Record Config := {
  shared : Shared;
  writer : WriterPc;
  reader : ReaderPc
}.

Inductive Thread := Writer | Reader.

Definition writer_step (lic : Licensing) (s : Shared) (pc : WriterPc)
    : Shared * WriterPc :=
  match pc with
  | WSleep => (s, WRead)
  | WRead =>
      let p := {| m_nProduct := GD_PRODUCT_LIVENESS_FACE lic;
                  m_lExpire := 0 |} in
      let answer := mil_read_license lic p in
      if (fst answer <=? 0)%Z then (s, WFree) else (s, WAlloc (snd answer))
  | WFree =>
      if Nat.eqb (ptr s) 0 then (s, WNull)
      else ({| ptr := ptr s; heap := delete (ptr s) (heap s);
               next := next s |}, WNull)
  | WNull => ({| ptr := 0%nat; heap := heap s; next := next s |}, WSleep)
  | WAlloc p =>
      if Nat.eqb (ptr s) 0 then
        ({| ptr := next s; heap := <[next s := None]> (heap s);
            next := S (next s) |}, WCopy p)
      else (s, WCopy p)
  | WCopy p =>
      ({| ptr := ptr s; heap := <[ptr s := Some p]> (heap s);
          next := next s |}, WSleep)
  end.

Definition reader_step (now_c : Z) (s : Shared) (pc : ReaderPc) : ReaderPc :=
  match pc with
  | RTestNull => if Nat.eqb (ptr s) 0 then RNoLicense else RTestExpire
  | RTestExpire =>
      if Nat.eqb (ptr s) 0 then RReadNull
      else
        match heap s !! ptr s with
        | None => RReadFreed (ptr s)
        | Some None => RReadUnwritten (ptr s)
        | Some (Some r) =>
            if (m_lExpire r <? now_c)%Z then RNoLicense else RProceed
        end
  | pc => pc
  end.

Definition step (lic : Licensing) (now_c : Z) (c : Config) (t : Thread)
    : Config :=
  match t with
  | Writer =>
      let (s, pc) := writer_step lic (shared c) (writer c) in
      {| shared := s; writer := pc; reader := reader c |}
  | Reader =>
      {| shared := shared c; writer := writer c;
         reader := reader_step now_c (shared c) (reader c) |}
  end.

Definition run (lic : Licensing) (now_c : Z) (schedule : list Thread)
    (c : Config) : Config :=
  fold_left (step lic now_c) schedule c.

(** A handler's reads are sound when they never land on a block that is
    freed or not yet written. *)
Definition reads_sound (c : Config) : Prop :=
  match reader c with
  | RReadNull | RReadFreed _ | RReadUnwritten _ => False
  | _ => True
  end.

(** The cache as it is between two turns of the refresh thread: NULL, or
    a pointer to a written record. *)
Definition settled (s : Shared) : Prop :=
  ptr s = 0%nat \/ exists r, heap s !! ptr s = Some (Some r).

(** The state of the cache as the refresh thread by itself keeps it: only
    the block [lv_pstRes] points to is allocated, and at each statement
    the pointer is what the statement needs: [free] finds NULL or an
    allocated block, [memcpy] an allocated block, and nothing is left
    allocated once the pointer is about to be set to NULL. *)
Definition allocated (s : Shared) (a : nat) : Prop := is_Some (heap s !! a).

Definition writer_safe (c : Config) : Prop :=
  let s := shared c in
  (forall a, allocated s a -> a = ptr s /\ a <> 0%nat) /\
  (ptr s < next s)%nat /\
  match writer c with
  | WSleep | WRead | WAlloc _ => settled s
  | WFree => ptr s = 0%nat \/ allocated s (ptr s)
  | WNull => forall a, ~ allocated s a
  | WCopy _ => allocated s (ptr s)
  end.

End Race.

(** ** Stand-ins for the code outside the file, to run the handler on *)

Module Stub.

Definition scores (quality probability : float) : CPipelineResult_t :=
  {| quality_result :=
       {| q_score := quality; q_class_ := true; q_ok := true |};
     liveness_result :=
       {| l_score := probability; l_probability := probability;
          l_ok := true |} |}.

(** The [float] literals 0.3f, 0.49f, 0.7f, 0.8f and 0.9f. *)
Definition f0_3 : float := 0x1.333334p-2.
Definition f0_49 : float := 0x1.f5c29p-2.
Definition f0_7 : float := 0x1.666666p-1.
Definition f0_8 : float := 0x1.99999ap-1.
Definition f0_9 : float := 0x1.ccccccp-1.

Definition wrote (e : STATUS) (m : string) : OutParams :=
  {| out_err := Some (STATUS_value e); out_msg := Some m |}.

(** Parsers that hand the body on, an SDK whose liveness check answers
    attempt [i] by [checks i], a stringifier that answers [printed]. *)
Definition engine_with
    (checks : Z -> outcome (CPipelineResult_t * OutParams))
    (printed : outcome string) : Collaborators :=
  {| multipart_fileData := fun body => Returns body;
     json_image := fun body => Returns body;
     base64_decode := fun encoded => Returns encoded;
     image_create_path := fun _ _ => Returns (7%nat, wrote OK "");
     pipeline_check_liveness := fun i _ _ => checks i;
     image_destroy := fun _ _ => Returns tt;
     pipeline_destroy := fun _ _ => Returns tt;
     setting_init := fun i _ => Returns (Z.to_nat (100 + i));
     stringify := fun _ => printed |}.

Definition engine
    (checks : Z -> outcome (CPipelineResult_t * OutParams)) : Collaborators :=
  engine_with checks (Returns "{}").

Definition steady (quality probability : float) : Collaborators :=
  engine (fun _ => Returns (scores quality probability, wrote OK "")).

Definition unlicensed : Collaborators :=
  engine (fun _ => Returns (scores 0 0, wrote LICENSE_ERROR license)).

Definition recovering : Collaborators :=
  engine (fun i =>
    if (i =? 0)%Z
    then Returns (scores 0 0,
                  wrote LICENSE_ERROR "LICENSE ERROR: License Is Not Installed")
    else Returns (scores f0_9 f0_7, wrote OK "")).

Definition no_face : Collaborators :=
  engine (fun _ => Returns (scores 0 0, wrote FACE_NOT_FOUND "Face not found")).

Definition error_reading_OK : Collaborators :=
  engine (fun _ => Returns (scores f0_8 f0_9, wrote LICENSE_ERROR "OK")).

Definition faulting (e : exception) : Collaborators :=
  engine (fun _ => Throws e).

(** A good engine, and a stringifier that fails: with an exception of
    Poco, or with one of the C++ library. *)
Definition unprintable : Collaborators :=
  engine_with (fun _ => Returns (scores f0_9 f0_7, wrote OK ""))
              (Throws (PocoException "Cannot stringify")).

Definition out_of_memory : Collaborators :=
  engine_with (fun _ => Returns (scores f0_9 f0_7, wrote OK ""))
              (Throws (OtherException "std::bad_alloc")).

Definition bad_body : Collaborators :=
  {| multipart_fileData := fun _ => Throws (PocoException "Bad part");
     json_image := fun _ => Throws (PocoException "JSON syntax error");
     base64_decode := fun _ => Throws (PocoException "Bad data format");
     image_create_path :=
       fun _ _ => Returns (0%nat, wrote FAILED_TO_READ_IMAGE "Cannot read");
     pipeline_check_liveness :=
       fun _ _ _ => Returns (scores 0 0, wrote NULLPTR "Image is null");
     image_destroy := fun _ _ => Returns tt;
     pipeline_destroy := fun _ _ => Returns tt;
     setting_init := fun _ _ => Returns 100%nat;
     stringify := fun _ => Returns "{}" |}.

Definition licensed : World :=
  {| lv_pstRes := Some {| m_nProduct := 3; m_lExpire := 2000 |};
     g_pPipeline := 1%nat; files := ∅; log := [] |}.

Definition unlicensed_world : World :=
  {| lv_pstRes := None; g_pPipeline := 1%nat; files := ∅; log := [] |}.

Definition upload (mode : Z) (data : string) : Invocation :=
  {| request_body := data; base64 := mode; now_c := 1000;
     clock := TickCount64 5; msg_uninit := ""; result_uninit := scores 0 0 |}.

Definition wrapped : string := "QUJD" +:+ CRLF +:+ "REVG".

Definition store (nSts expire : Z) : Licensing :=
  {| GD_PRODUCT_LIVENESS_FACE := 3;
     mil_read_license :=
       fun p =>
         (nSts, {| m_nProduct := m_nProduct p; m_lExpire := expire |}) |}.

(** The steady engine of [steady 0.5 0.5], the image string read through
    the decoder of the Poco library. *)
Definition decoding : Collaborators :=
  {| multipart_fileData := fun body => Returns body;
     json_image := fun body => Returns body;
     base64_decode := Base64Decoder.decode;
     image_create_path := fun _ _ => Returns (7%nat, wrote OK "");
     pipeline_check_liveness :=
       fun _ _ _ => Returns (scores 0.5 0.5, wrote OK "");
     image_destroy := fun _ _ => Returns tt;
     pipeline_destroy := fun _ _ => Returns tt;
     setting_init := fun i _ => Returns (Z.to_nat (100 + i));
     stringify := fun _ => Returns "{}" |}.

(** The refresh thread about to read the store, a handler about to test
    the cache; the cache holds a license, or is empty. *)
Definition cached : Race.Config :=
  {| Race.shared :=
       {| Race.ptr := 1%nat;
          Race.heap :=
            {[ 1%nat := Some {| m_nProduct := 3; m_lExpire := 2000 |} ]};
          Race.next := 2%nat |};
     Race.writer := Race.WRead; Race.reader := Race.RTestNull |}.

Definition empty_cache : Race.Config :=
  {| Race.shared :=
       {| Race.ptr := 0%nat; Race.heap := ∅; Race.next := 1%nat |};
     Race.writer := Race.WRead; Race.reader := Race.RTestNull |}.

End Stub.


(** ** Reading the log *)

Fixpoint count (f : Event -> bool) (l : list Event) : nat :=
  match l with
  | [] => 0
  | e :: l' => if f e then S (count f l') else count f l'
  end.

Definition is_check (e : Event) : bool :=
  match e with EvCheckLiveness _ _ => true | _ => false end.

Definition is_reset (e : Event) : bool :=
  match e with EvSettingInit _ => true | _ => false end.

Definition is_remove (path : string) (e : Event) : bool :=
  match e with EvRemove p => String.eqb p path | _ => false end.

(** The calls that go to the SDK or to the engine set-up. *)
Definition is_engine_call (e : Event) : bool :=
  match e with
  | EvImageCreatePath _ | EvCheckLiveness _ _ | EvImageDestroy _
  | EvPipelineDestroy _ | EvSettingInit _ => true
  | _ => false
  end.

(** The strings handed to the base64 decoder. *)
Fixpoint decoder_inputs (l : list Event) : list string :=
  match l with
  | [] => []
  | EvBase64Decode s :: l' => s :: decoder_inputs l'
  | _ :: l' => decoder_inputs l'
  end.

(** The verdict as the specification words it. *)
Inductive Verdict := BadQuality | Genuine | Spoofed.

Definition verdict_of (quality probability : float) : Verdict :=
  if PrimFloat.ltb quality 0.5 then BadQuality
  else if PrimFloat.leb 0.5 probability then Genuine
  else Spoofed.

Definition verdict_text (v : Verdict) : string :=
  match v with
  | BadQuality => "Image has a bad quality"
  | Genuine => "Image is genuine"
  | Spoofed => "Image is spoofed"
  end.

(** [w'] is [w] after the engine calls [t] and nothing else: the license
    cache and the files are those of [w]. *)
Definition engine_only (w w' : World) (t : list Event) : Prop :=
  log w' = (log w ++ t)%list /\ forallb is_engine_call t = true /\
  lv_pstRes w' = lv_pstRes w /\ files w' = files w.

(** The objects handed to the stringifier. *)
Fixpoint roots (l : list Event) : list (gmap string JValue) :=
  match l with
  | [] => []
  | EvStringify root :: l' => root :: roots l'
  | _ :: l' => roots l'
  end.

(** The variables [result], [err] and [msg] when the loop is left, if the
    handler gets that far. *)
Definition final_attempt (ndebug : bool) (env : Collaborators)
    (inv : Invocation) (w : World) : option Locals :=
  if ndebug && no_license w inv then None
  else
    match stage env inv w with
    | (Returns filePath, w1) =>
        match attempt_loop env filePath (initial_locals inv) w1 with
        | (Returns st, _) => Some st
        | _ => None
        end
    | _ => None
    end.

(** ** The other handlers *)

Definition text_response (text : string) : Response :=
  {| status := HTTP_OK; contentType := "text/plain";
     contentLength := None; headers := cors_headers; body := text |}.

(** The expiry from which [OnStatus] prints NO LIMIT. *)
Definition NO_LIMIT : Z := 32503622400.

(** [OnStatus]; [date t] is what [localtime_s] and [strftime] print for
    the conversion [%Y-%m-%d] at time [t]. *)
Definition OnStatus (date : Z -> string) : M Response :=
  fun w =>
    (Returns
       (text_response
          match lv_pstRes w with
          | None => "License not found"
          | Some r =>
              if (m_lExpire r <? NO_LIMIT)%Z
              then c_str ("License valid : " +:+ date (m_lExpire r))
              else "License valid : NO LIMIT"
          end), w).

(** ** Worlds a handler cannot tell apart *)

(** Two worlds with the same engine handle and the same files: they may
    differ in the license cache and in the log. *)
Definition same_view (w1 w2 : World) : Prop :=
  g_pPipeline w1 = g_pPipeline w2 /\ files w1 = files w2.

(** [m] reads nothing but the engine handle and the files. *)
Definition blind {A} (m : M A) : Prop :=
  forall w1 w2, same_view w1 w2 ->
    fst (m w1) = fst (m w2) /\ same_view (snd (m w1)) (snd (m w2)).

Definition is_create (e : Event) : bool :=
  match e with EvImageCreatePath _ => true | _ => false end.

Definition is_image_destroy (e : Event) : bool :=
  match e with EvImageDestroy _ => true | _ => false end.

Definition is_json_200 (r : Response) : bool :=
  (status r =? HTTP_OK)%Z && String.eqb (contentType r) "application/json".



(** ** What [replaceAll] computes *)

Fixpoint string_drop (n : nat) (s : string) : string :=
  match n, s with
  | O, _ => s
  | S _, EmptyString => EmptyString
  | S n', String _ s' => string_drop n' s'
  end.

(** The text read from left to right: where [search] starts, [replace_]
    is put out and the reading goes on behind the occurrence; elsewhere
    one character is copied.  [fuel] bounds the number of steps. *)
Fixpoint substitute (fuel : nat) (s search replace_ : string) : string :=
  match fuel with
  | O => s
  | S fuel' =>
      if String.prefix search s then
        String.append replace_
          (substitute fuel' (string_drop (String.length search) s)
             search replace_)
      else
        match s with
        | EmptyString => EmptyString
        | String c s' => String c (substitute fuel' s' search replace_)
        end
  end.

(** Evaluate a closed run and keep the equation. *)
Ltac evaluate m H :=
  let v := eval vm_compute in m in
  assert (H : m = v) by (vm_compute; reflexivity).

(** * Properties *)

(** ** The comparison of [_stricmp] *)

Section StricmpFacts.

Lemma code_inj (c d : ascii) : code c = code d -> c = d.
Proof.
  unfold code. intros H. apply N2Z.inj in H.
  rewrite <- (ascii_N_embedding c), <- (ascii_N_embedding d). now rewrite H.
Qed.

Lemma code_nonneg (c : ascii) : (0 <= code c)%Z.
Proof. unfold code. lia. Qed.

Lemma tolower_nul (c : ascii) : is_nul (tolower c) = is_nul c.
Proof. destruct c as [[] [] [] [] [] [] [] []]; reflexivity. Qed.

Lemma is_nul_code (c : ascii) : is_nul c = true <-> code c = 0%Z.
Proof. unfold is_nul, code. rewrite N.eqb_eq. lia. Qed.

Lemma is_nul_false_code (c : ascii) : is_nul c = false <-> code c <> 0%Z.
Proof. unfold is_nul, code. rewrite N.eqb_neq. lia. Qed.

(** [_stricmp] is zero exactly when the two C strings agree once
    lower-cased. *)
Lemma _stricmp_zero_iff (a b : string) :
  _stricmp a b = 0%Z <-> lowercase (c_str a) = lowercase (c_str b).
Proof.
  revert b. induction a as [|c a IH]; intros [|d b]; simpl.
  - tauto.
  - destruct (is_nul d) eqn:Hd; simpl.
    + rewrite <- tolower_nul in Hd. apply is_nul_code in Hd. rewrite Hd. tauto.
    + rewrite <- tolower_nul in Hd. apply is_nul_false_code in Hd.
      split; [lia | discriminate].
  - destruct (is_nul c) eqn:Hc; simpl.
    + rewrite <- tolower_nul in Hc. apply is_nul_code in Hc. rewrite Hc. tauto.
    + rewrite <- tolower_nul in Hc. apply is_nul_false_code in Hc.
      split; [lia | discriminate].
  - destruct (Z.eqb_spec (code (tolower c)) (code (tolower d))) as [E|E].
    + apply code_inj in E.
      assert (Hcd : is_nul c = is_nul d)
        by (rewrite <- (tolower_nul c), <- (tolower_nul d), E; reflexivity).
      rewrite <- Hcd. destruct (is_nul c); simpl; [tauto|].
      rewrite IH, E.
      split; [intros ->; reflexivity | intros H; now inversion H].
    + split; [lia|]. intros H. exfalso.
      destruct (is_nul c) eqn:Hc, (is_nul d) eqn:Hd; simpl in H.
      * rewrite <- tolower_nul in Hc, Hd.
        apply is_nul_code in Hc, Hd. congruence.
      * discriminate.
      * discriminate.
      * inversion H. congruence.
Qed.

End StricmpFacts.

(** ** Running the monad *)

Section MonadFacts.

Context {A B : Type}.

Lemma bind_returns (m : M A) (k : A -> M B) w a w' :
  m w = (Returns a, w') -> bind m k w = k a w'.
Proof. unfold bind. now intros ->. Qed.

Lemma bind_throws (m : M A) (k : A -> M B) w e w' :
  m w = (Throws e, w') -> bind m k w = (Throws e, w').
Proof. unfold bind. now intros ->. Qed.

Lemma try_returns (m : M A) (h : string -> M A) w a w' :
  m w = (Returns a, w') -> try_catch_Exception m h w = (Returns a, w').
Proof. unfold try_catch_Exception. now intros ->. Qed.

Lemma try_poco (m : M A) (h : string -> M A) w text w' :
  m w = (Throws (PocoException text), w') ->
  try_catch_Exception m h w = h text w'.
Proof. unfold try_catch_Exception. now intros ->. Qed.

Lemma try_other (m : M A) (h : string -> M A) w what w' :
  m w = (Throws (OtherException what), w') ->
  try_catch_Exception m h w = (Throws (OtherException what), w').
Proof. unfold try_catch_Exception. now intros ->. Qed.

End MonadFacts.

Lemma count_app f (l1 l2 : list Event) :
  count f (l1 ++ l2) = (count f l1 + count f l2)%nat.
Proof.
  induction l1 as [|e l1 IH]; simpl; [reflexivity|].
  destruct (f e); simpl; now rewrite IH.
Qed.

(** ** The attempts touch nothing but the engine *)

Lemma engine_only_refl w : engine_only w w [].
Proof. unfold engine_only. now rewrite app_nil_r. Qed.

Lemma engine_only_trans w1 w2 w3 t1 t2 :
  engine_only w1 w2 t1 -> engine_only w2 w3 t2 ->
  engine_only w1 w3 (t1 ++ t2)%list.
Proof.
  unfold engine_only. intros (L1 & F1 & C1 & S1) (L2 & F2 & C2 & S2).
  repeat split; try congruence.
  - rewrite L2, L1. now rewrite app_assoc.
  - rewrite forallb_app, F1, F2. reflexivity.
Qed.

Lemma attempt_run env i path st w :
  exists t, engine_only w (snd (attempt env i path st w)) t /\
            (count is_check t <= 1)%nat.
Proof.
  unfold attempt, bind, call, get_pipeline, ret, engine_only. simpl.
  destruct (image_create_path env i path) as [[image o1]|e1]; simpl.
  2:{ eexists; repeat split; simpl; auto. }
  destruct (pipeline_check_liveness env i (g_pPipeline w) image)
    as [[r o2]|e2]; simpl.
  2:{ eexists; repeat split; [now rewrite <- app_assoc | |]; simpl; auto. }
  destruct (image_destroy env i image) as [[]|e3]; simpl;
    (eexists; repeat split; [now rewrite <- !app_assoc | |]; simpl; auto).
Qed.

Lemma reset_run env i w :
  exists t, engine_only w (snd (reset_pipeline env i w)) t /\
            count is_check t = 0%nat.
Proof.
  unfold reset_pipeline, call_setting_init, bind, call, get_pipeline,
    engine_only. simpl.
  destruct (pipeline_destroy env i (g_pPipeline w)) as [[]|e1]; simpl.
  2:{ eexists; repeat split; simpl; auto. }
  destruct (setting_init env i 1) as [h|e2]; simpl;
    (eexists; repeat split; [now rewrite <- !app_assoc | |]; simpl; auto).
Qed.

(** The loop makes at most as many liveness checks as it has turns. *)
Lemma attempts_run env path n : forall i st w,
  exists t, engine_only w (snd (attempts env path n i st w)) t /\
            (count is_check t <= n)%nat.
Proof.
  induction n as [|n IH]; intros i st w; simpl.
  - exists []. split; [apply engine_only_refl | simpl; lia].
  - destruct (attempt_run env i path st w) as (t1 & E1 & C1).
    unfold bind at 1.
    destruct (attempt env i path st w) as [[st1|e] w1]; simpl in *.
    2:{ exists t1. split; [assumption | lia]. }
    destruct (_stricmp (msg st1) license =? 0)%Z.
    2:{ exists t1. split; [assumption | lia]. }
    destruct (reset_run env i w1) as (t2 & E2 & C2).
    unfold bind at 1.
    destruct (reset_pipeline env i w1) as [[[]|e] w2]; simpl in *.
    2:{ exists (t1 ++ t2)%list. split; [eapply engine_only_trans; eauto|].
        rewrite count_app. lia. }
    destruct (IH (i + 1)%Z st1 w2) as (t3 & E3 & C3).
    exists ((t1 ++ t2) ++ t3)%list. split.
    + eapply engine_only_trans; [eapply engine_only_trans|]; eauto.
    + rewrite !count_app. lia.
Qed.

(** ** The handler, stage by stage *)

Lemma stage_after_ingest env inv w :
  stage env inv w =
    match ingest env inv w with
    | (Returns data, w0) =>
        (Returns (filePath_of inv),
         snd (write_file (filePath_of inv) data w0))
    | (Throws (PocoException _), w0) =>
        (Returns (filePath_of inv), snd (write_file (filePath_of inv) "" w0))
    | (Throws (OtherException what), w0) => (Throws (OtherException what), w0)
    end.
Proof.
  unfold stage, bind, try_catch_Exception.
  destruct (ingest env inv w) as [[data|[text|what]] w0]; reflexivity.
Qed.

Lemma stage_path env inv w path w1 :
  stage env inv w = (Returns path, w1) -> path = filePath_of inv.
Proof.
  rewrite stage_after_ingest.
  destruct (ingest env inv w) as [[data|[text|what]] w0]; congruence.
Qed.

Lemma OnProcessProc_staged ndebug env inv w path w1 :
  ndebug && no_license w inv = false ->
  stage env inv w = (Returns path, w1) ->
  OnProcessProc ndebug env inv w = process env inv path w1.
Proof.
  intros Hgate Hstage. unfold OnProcessProc. rewrite Hgate.
  now rewrite (bind_returns _ _ _ _ _ Hstage).
Qed.

(** Once the loop is left, the handler builds [root], hands it to the
    stringifier, removes the file and answers. *)
Lemma process_after_loop env inv path w1 st w2 :
  attempt_loop env path (initial_locals inv) w1 = (Returns st, w2) ->
  process env inv path w1 =
    let w3 := log_event (EvStringify (build_root st)) w2 in
    match stringify env (build_root st) with
    | Returns out => (Returns (json_response out), snd (remove path w3))
    | Throws (PocoException text) => (Returns (conflict_response text), w3)
    | Throws (OtherException what) => (Throws (OtherException what), w3)
    end.
Proof.
  intros Hloop. unfold process, respond, try_catch_Exception.
  rewrite (bind_returns _ _ _ _ _ Hloop). unfold bind, call, ret. simpl.
  destruct (stringify env (build_root st)) as [out|[text|what]]; reflexivity.
Qed.

Lemma process_after_fault env inv path w1 e w2 :
  respond env inv path w1 = (Throws e, w2) ->
  process env inv path w1 =
    match e with
    | PocoException text => (Returns (conflict_response text), w2)
    | OtherException what => (Throws (OtherException what), w2)
    end.
Proof.
  intros H. unfold process, try_catch_Exception. rewrite H.
  destruct e; reflexivity.
Qed.

Lemma verdict_in_root st :
  build_root st !! "liveness result " =
    Some (JString (verdict_text
      (verdict_of (q_score (quality_result (result st)))
                  (l_probability (liveness_result (result st)))))).
Proof.
  unfold build_root, verdict_of.
  destruct (err st =? STATUS_value OK)%Z;
    (rewrite lookup_insert_ne by discriminate);
    destruct (PrimFloat.ltb _ _);
      [ | destruct (PrimFloat.leb _ _) | | destruct (PrimFloat.leb _ _) ];
    now rewrite lookup_insert_eq.
Qed.

(** C1: when the handler reaches the classification, the object it hands
    to the stringifier carries under "liveness result " the verdict of
    the last attempt's result, decided in this order: quality below 0.5 is
    "Image has a bad quality"; otherwise probability at least 0.5 is
    "Image is genuine"; otherwise "Image is spoofed".  Quality 0.5 is not
    bad, probability 0.5 is genuine, and the quality test goes first
    whatever the probability. *)
Theorem C1_verdict_order ndebug env inv w path w1 st w2 :
  ndebug && no_license w inv = false ->
  stage env inv w = (Returns path, w1) ->
  attempt_loop env path (initial_locals inv) w1 = (Returns st, w2) ->
  let q := q_score (quality_result (result st)) in
  let p := l_probability (liveness_result (result st)) in
  (exists t, log (snd (OnProcessProc ndebug env inv w)) =
             (log w2 ++ EvStringify (build_root st) :: t)%list) /\
  build_root st !! "liveness result " =
    Some (JString (verdict_text (verdict_of q p))) /\
  (PrimFloat.ltb q 0.5 = true -> verdict_of q p = BadQuality) /\
  (PrimFloat.ltb q 0.5 = false -> PrimFloat.leb 0.5 p = true ->
   verdict_of q p = Genuine) /\
  (PrimFloat.ltb q 0.5 = false -> PrimFloat.leb 0.5 p = false ->
   verdict_of q p = Spoofed) /\
  (forall p', verdict_of 0.5 p' <> BadQuality) /\
  (forall q', PrimFloat.ltb q' 0.5 = false -> verdict_of q' 0.5 = Genuine) /\
  (forall q' p', PrimFloat.ltb q' 0.5 = true -> verdict_of q' p' = BadQuality).
Proof.
  intros Hgate Hstage Hloop q p.
  split; [|split; [apply verdict_in_root|]].
  - rewrite (OnProcessProc_staged _ _ _ _ _ _ Hgate Hstage).
    rewrite (process_after_loop _ _ _ _ _ _ Hloop). simpl.
    destruct (stringify env (build_root st)) as [out|[text|what]]; simpl;
      eexists; try reflexivity.
    rewrite <- app_assoc. reflexivity.
  - unfold verdict_of. repeat split.
    + now intros ->.
    + now intros -> ->.
    + now intros -> ->.
    + intros p'. change (PrimFloat.ltb 0.5 0.5) with false.
      destruct (PrimFloat.leb 0.5 p'); discriminate.
    + intros q' ->. reflexivity.
    + now intros q' p' ->.
Qed.

(** Scenario B of the specification (quality 0.8, probability 0.5). *)
Lemma C1_witness :
  verdict_of Stub.f0_8 0.5 = Genuine /\
  (forall p', verdict_of 0.5 p' <> BadQuality).
Proof.
  evaluate (stage (Stub.steady Stub.f0_8 0.5) (Stub.upload 0 "img")
              Stub.licensed) Hstage.
  match type of Hstage with _ = (Returns ?path, ?w1) =>
    evaluate (attempt_loop (Stub.steady Stub.f0_8 0.5) path
                (initial_locals (Stub.upload 0 "img")) w1) Hloop
  end.
  pose proof (fun Hgate =>
    C1_verdict_order true _ _ _ _ _ _ _ Hgate Hstage Hloop) as HC1.
  destruct (HC1 eq_refl) as (_ & _ & _ & H & _ & H' & _).
  split; [apply H; reflexivity | exact H'].
Defined.

(** Scenarios A and C, and the two thresholds. *)
Example verdict_scenarios :
  verdict_of Stub.f0_3 Stub.f0_9 = BadQuality /\
  verdict_of Stub.f0_8 0.5 = Genuine /\
  verdict_of Stub.f0_8 Stub.f0_49 = Spoofed /\
  verdict_of 0.5 0.5 = Genuine /\
  verdict_of 0.5 Stub.f0_49 = Spoofed.
Proof. repeat split. Qed.

(** ** The license gate *)

(** C3: in a build with NDEBUG, when the cached license is absent or its
    expiry lies before the current time, the handler answers 200 with the
    plain text "Please input license." and leaves the world as it was: no
    call reaches the engine, nothing is parsed, no file is written. *)
Theorem C3_no_license env inv w :
  lv_pstRes w = None \/
  (exists r, lv_pstRes w = Some r /\ (m_lExpire r < now_c inv)%Z) ->
  let answer := OnProcessProc true env inv w in
  fst answer =
    Returns {| status := 200; contentType := "text/plain";
               contentLength := None; headers := cors_headers;
               body := "Please input license." |} /\
  snd answer = w /\
  count is_engine_call (log (snd answer)) = count is_engine_call (log w).
Proof.
  intros H answer.
  assert (Hgate : no_license w inv = true).
  { unfold no_license. destruct H as [-> | (r & -> & Hr)]; [reflexivity|].
    now apply Z.ltb_lt. }
  subst answer. unfold OnProcessProc. simpl. rewrite Hgate. simpl.
  repeat split.
Qed.

Lemma C3_witness :
  fst (OnProcessProc true Stub.unlicensed (Stub.upload 0 "img")
         Stub.unlicensed_world) =
    Returns {| status := 200; contentType := "text/plain";
               contentLength := None; headers := cors_headers;
               body := "Please input license." |} /\
  log (snd (OnProcessProc true Stub.unlicensed (Stub.upload 0 "img")
              Stub.unlicensed_world)) = [].
Proof.
  destruct (C3_no_license Stub.unlicensed (Stub.upload 0 "img")
              Stub.unlicensed_world (or_introl eq_refl)) as (H1 & H2 & _).
  split; [exact H1 | now rewrite H2].
Defined.

(** An expired license is turned away like a missing one. *)
Example expired_license_is_refused :
  OnProcessProc true (Stub.steady 0.5 0.5)
    {| request_body := "img"; base64 := 0; now_c := 2001;
       clock := TickCount64 5; msg_uninit := "";
       result_uninit := Stub.scores 0 0 |} Stub.licensed =
  OnNoLicense Stub.licensed.
Proof. reflexivity. Qed.

(** ** The attempts *)

Lemma reset_events env i w :
  exists t,
    log (snd (reset_pipeline env i w)) =
      (log w ++ EvPipelineDestroy (g_pPipeline w) :: t)%list /\
    forall w', reset_pipeline env i w = (Returns tt, w') ->
      t = [EvSettingInit 1] /\
      setting_init env i 1 = Returns (g_pPipeline w').
Proof.
  unfold reset_pipeline, call_setting_init, bind, call, get_pipeline. simpl.
  destruct (pipeline_destroy env i (g_pPipeline w)) as [[]|e1]; simpl.
  2:{ exists []. split; [reflexivity | discriminate]. }
  destruct (setting_init env i 1) as [h|e2]; simpl.
  - exists [EvSettingInit 1]. split; [now rewrite <- app_assoc|].
    intros w' H. inversion H; subst. now split.
  - exists [EvSettingInit 1]. split; [now rewrite <- app_assoc|discriminate].
Qed.

Lemma stage_run env inv w :
  exists t, log (snd (stage env inv w)) = (log w ++ t)%list /\
            count is_check t = 0%nat /\
            lv_pstRes (snd (stage env inv w)) = lv_pstRes w.
Proof.
  rewrite stage_after_ingest. unfold ingest, bind, call.
  destruct (base64 inv =? 0)%Z; simpl.
  - destruct (multipart_fileData env (request_body inv)) as [d|[x|x]]; simpl;
      eexists; (split; [try rewrite <- app_assoc; reflexivity | now split]).
  - destruct (json_image env (request_body inv)) as [s|[x|x]]; simpl;
      [destruct (base64_decode env s) as [d|[y|y]]; simpl| |];
      eexists; (split; [try rewrite <- !app_assoc; reflexivity | now split]).
Qed.

Lemma respond_after_loop_fault env inv path w1 e w2 :
  attempt_loop env path (initial_locals inv) w1 = (Throws e, w2) ->
  respond env inv path w1 = (Throws e, w2).
Proof. intros H. unfold respond. now rewrite (bind_throws _ _ _ _ _ H). Qed.

Lemma process_run env inv path w :
  exists t, log (snd (process env inv path w)) = (log w ++ t)%list /\
            (count is_check t <= 2)%nat /\
            lv_pstRes (snd (process env inv path w)) = lv_pstRes w.
Proof.
  destruct (attempts_run env path 2 0%Z (initial_locals inv) w)
    as (t & (L & F & C & S) & N).
  fold (attempt_loop env path (initial_locals inv)) in *.
  destruct (attempt_loop env path (initial_locals inv) w)
    as [[st|e] w2] eqn:Hloop; simpl in *.
  - rewrite (process_after_loop _ _ _ _ _ _ Hloop). simpl.
    destruct (stringify env (build_root st)) as [out|[y|y]]; simpl;
      eexists; (split; [rewrite L, <- ?app_assoc; reflexivity|]);
      (split; [rewrite count_app; simpl; lia | assumption]).
  - rewrite (process_after_fault _ _ _ _ _ _
               (respond_after_loop_fault _ _ _ _ _ _ Hloop)).
    exists t. destruct e; now repeat split.
Qed.

(** Any call of the handler appends to the log, makes at most two
    liveness checks and leaves the license cache alone. *)
Lemma OnProcessProc_run ndebug env inv w :
  exists t,
    log (snd (OnProcessProc ndebug env inv w)) = (log w ++ t)%list /\
    (count is_check t <= 2)%nat /\
    lv_pstRes (snd (OnProcessProc ndebug env inv w)) = lv_pstRes w.
Proof.
  unfold OnProcessProc.
  destruct (ndebug && no_license w inv).
  - exists []. simpl. rewrite app_nil_r. repeat split. lia.
  - destruct (stage_run env inv w) as (t1 & L1 & C1 & S1).
    unfold bind.
    destruct (stage env inv w) as [[path|e] w1]; simpl in *.
    + destruct (process_run env inv path w1) as (t2 & L2 & C2 & S2).
      exists (t1 ++ t2)%list. rewrite L2, L1, app_assoc, count_app.
      repeat split; [lia | congruence].
    + exists t1. repeat split; [assumption | lia | assumption].
Qed.

(** An attempt that returns leaves in [result], [err] and [msg] what the
    liveness check returned and what the two calls wrote. *)
Lemma attempt_returns env i path st w st1 w1 :
  attempt env i path st w = (Returns st1, w1) ->
  exists image o1 r o2,
    image_create_path env i path = Returns (image, o1) /\
    pipeline_check_liveness env i (g_pPipeline w) image = Returns (r, o2) /\
    st1 = write_out o2 (set_result r (write_out o1 st)) /\
    log w1 = (log w ++ [EvImageCreatePath path;
                        EvCheckLiveness (g_pPipeline w) image;
                        EvImageDestroy image])%list.
Proof.
  unfold attempt, bind, call, get_pipeline, ret. simpl.
  destruct (image_create_path env i path) as [[image o1]|e1] eqn:E1; simpl;
    [|discriminate].
  destruct (pipeline_check_liveness env i (g_pPipeline w) image)
    as [[r o2]|e2] eqn:E2; simpl; [|discriminate].
  destruct (image_destroy env i image) as [[]|e3]; simpl; [|discriminate].
  intros H. inversion H; subst. exists image, o1, r, o2.
  split; [reflexivity | split; [exact E2 | split; [reflexivity|]]].
  simpl. now rewrite <- !app_assoc.
Qed.

Lemma license_match_iff m :
  _stricmp m license = 0%Z <->
  lowercase (c_str m) = "license error: license is not installed".
Proof. now rewrite _stricmp_zero_iff. Qed.

Lemma attempts_unfold env path n i st w :
  attempts env path (S n) i st w =
    match attempt env i path st w with
    | (Returns st1, w1) =>
        if (_stricmp (msg st1) license =? 0)%Z then
          match reset_pipeline env i w1 with
          | (Returns _, w1') => attempts env path n (i + 1)%Z st1 w1'
          | (Throws e, w1') => (Throws e, w1')
          end
        else (Returns st1, w1)
    | (Throws e, w1) => (Throws e, w1)
    end.
Proof.
  simpl. unfold bind at 1.
  destruct (attempt env i path st w) as [[st1|e] w1]; [|reflexivity].
  destruct (_stricmp (msg st1) license =? 0)%Z; [|reflexivity].
  unfold bind. destruct (reset_pipeline env i w1) as [[[]|e] w1']; reflexivity.
Qed.

(** C2: the loop of the handler makes at most two attempts.  After an
    attempt the message is compared with "License error: license is not
    installed" without regard to case.  A message that differs ends the
    loop with that attempt's result.  A message that matches has the
    pipeline destroyed and [setting_init(1)] called before the next
    attempt; after the second attempt its result is the one that is kept,
    matching or not, and no third check is made. *)
Theorem C2_attempt_loop env path st w :
  (exists t, log (snd (attempt_loop env path st w)) = (log w ++ t)%list /\
             (count is_check t <= 2)%nat) /\
  (forall ndebug inv w0, exists t,
      log (snd (OnProcessProc ndebug env inv w0)) = (log w0 ++ t)%list /\
      (count is_check t <= 2)%nat) /\
  (forall m, _stricmp m license = 0%Z <->
             lowercase (c_str m) = "license error: license is not installed") /\
  (forall st1 w1,
      attempt env 0 path st w = (Returns st1, w1) ->
      _stricmp (msg st1) license <> 0%Z ->
      attempt_loop env path st w = (Returns st1, w1)) /\
  (forall st1 w1,
      attempt env 0 path st w = (Returns st1, w1) ->
      _stricmp (msg st1) license = 0%Z ->
      (exists t, log (snd (reset_pipeline env 0 w1)) =
                 (log w1 ++ EvPipelineDestroy (g_pPipeline w1) :: t)%list) /\
      forall w1', reset_pipeline env 0 w1 = (Returns tt, w1') ->
        log w1' = (log w1 ++ [EvPipelineDestroy (g_pPipeline w1);
                              EvSettingInit 1])%list /\
        setting_init env 0 1 = Returns (g_pPipeline w1') /\
        forall st2 w2,
          attempt env 1 path st1 w1' = (Returns st2, w2) ->
          (_stricmp (msg st2) license <> 0%Z ->
           attempt_loop env path st w = (Returns st2, w2)) /\
          (_stricmp (msg st2) license = 0%Z ->
           forall w2', reset_pipeline env 1 w2 = (Returns tt, w2') ->
             attempt_loop env path st w = (Returns st2, w2'))).
Proof.
  split; [|split; [|split; [|split]]].
  - destruct (attempts_run env path 2 0%Z st w) as (t & (L & _) & N).
    exists t. now split.
  - intros ndebug inv w0.
    destruct (OnProcessProc_run ndebug env inv w0) as (t & L & N & _).
    exists t. now split.
  - apply license_match_iff.
  - intros st1 w1 H1 Hne. unfold attempt_loop.
    rewrite attempts_unfold, H1.
    now destruct (Z.eqb_spec (_stricmp (msg st1) license) 0).
  - intros st1 w1 H1 Heq.
    destruct (reset_events env 0%Z w1) as (t & Lr & Hr).
    split; [now exists t|].
    intros w1' Hreset. destruct (Hr _ Hreset) as (-> & Hinit).
    rewrite Hreset in Lr. simpl in Lr.
    split; [exact Lr | split; [exact Hinit|]].
    intros st2 w2 H2.
    assert (Hloop : attempt_loop env path st w =
                    attempts env path 1 1%Z st1 w1').
    { unfold attempt_loop. rewrite attempts_unfold, H1, Heq. simpl.
      now rewrite Hreset. }
    rewrite Hloop, attempts_unfold, H2. split.
    + intros Hne. now destruct (Z.eqb_spec (_stricmp (msg st2) license) 0).
    + intros Heq2 w2' Hreset2. rewrite Heq2. simpl. now rewrite Hreset2.
Qed.

(** An engine that reports the license error twice: two attempts, two
    resets, and the second attempt's values are the ones kept. *)
Lemma C2_witness :
  fst (attempt_loop Stub.unlicensed "5output_file.dat"
         (initial_locals (Stub.upload 0 "img")) Stub.licensed) =
    Returns {| result := Stub.scores 0 0;
               err := STATUS_value LICENSE_ERROR; msg := license |}.
Proof.
  pose (env := Stub.unlicensed). pose (path := "5output_file.dat").
  pose (st0 := initial_locals (Stub.upload 0 "img")).
  evaluate (attempt env 0 path st0 Stub.licensed) H1.
  match type of H1 with _ = (Returns ?st1, ?w1) =>
    evaluate (reset_pipeline env 0 w1) Hr1;
    match type of Hr1 with _ = (Returns tt, ?w1') =>
      evaluate (attempt env 1 path st1 w1') H2;
      match type of H2 with _ = (Returns ?st2, ?w2) =>
        evaluate (reset_pipeline env 1 w2) Hr2
      end
    end
  end.
  destruct (C2_attempt_loop env path st0 Stub.licensed)
    as (_ & _ & _ & _ & HC).
  destruct (HC _ _ H1 eq_refl) as (_ & HC1).
  destruct (HC1 _ Hr1) as (_ & _ & HC2).
  destruct (HC2 _ _ H2) as (_ & HC3).
  unfold env, path, st0 in HC3.
  rewrite (HC3 eq_refl _ Hr2). reflexivity.
Defined.

(** The retry bound: an engine that always reports the license error is
    checked exactly twice and reset after each check. *)
Example retry_bound :
  let l := log (snd (OnProcessProc true Stub.unlicensed
                       (Stub.upload 0 "img") Stub.licensed)) in
  count is_check l = 2%nat /\ count is_reset l = 2%nat /\
  option_map err (final_attempt true Stub.unlicensed (Stub.upload 0 "img")
                    Stub.licensed) = Some (STATUS_value LICENSE_ERROR).
Proof. vm_compute. repeat split. Qed.

(** The short circuit: any other error is not retried. *)
Example retry_short_circuit :
  let l := log (snd (OnProcessProc true Stub.no_face
                       (Stub.upload 0 "img") Stub.licensed)) in
  count is_check l = 1%nat /\ count is_reset l = 0%nat /\
  option_map msg (final_attempt true Stub.no_face (Stub.upload 0 "img")
                    Stub.licensed) = Some "Face not found".
Proof. vm_compute. repeat split. Qed.

(** Scenario E: the license error in mixed case, then a good answer. *)
Example scenario_E :
  let l := log (snd (OnProcessProc true Stub.recovering
                       (Stub.upload 0 "img") Stub.licensed)) in
  count is_check l = 2%nat /\ count is_reset l = 1%nat /\
  map (fun root : gmap string JValue => root !! "liveness result ")
      (roots l) = [Some (JString "Image is genuine")] /\
  map (fun root : gmap string JValue => root !! "state ")
      (roots l) = [Some (JString "OK")].
Proof. vm_compute. repeat split. Qed.

(** ** Ingestion *)

(** A trace that opens with [image_create_path(path)] and, when that call
    returns [image], goes on with the liveness check of [image] on the
    pipeline [engine]. *)
Lemma opens_with_app env i path engine t1 t2 :
  (exists t, t1 = EvImageCreatePath path :: t /\
     forall image o, image_create_path env i path = Returns (image, o) ->
       exists t', t = EvCheckLiveness engine image :: t') ->
  exists t, (t1 ++ t2)%list = EvImageCreatePath path :: t /\
     forall image o, image_create_path env i path = Returns (image, o) ->
       exists t', t = EvCheckLiveness engine image :: t'.
Proof.
  intros (t & -> & H). exists (t ++ t2)%list. split; [reflexivity|].
  intros image o Hc. destruct (H _ _ Hc) as (t' & ->).
  now exists (t' ++ t2)%list.
Qed.

Lemma attempt_head env i path st w :
  exists t1, log (snd (attempt env i path st w)) = (log w ++ t1)%list /\
    exists t, t1 = EvImageCreatePath path :: t /\
      forall image o, image_create_path env i path = Returns (image, o) ->
        exists t', t = EvCheckLiveness (g_pPipeline w) image :: t'.
Proof.
  unfold attempt, bind, call, get_pipeline, ret. simpl.
  destruct (image_create_path env i path) as [[image o1]|e1]; simpl.
  2:{ eexists. split; [reflexivity|]. eexists. split; [reflexivity|].
      discriminate. }
  destruct (pipeline_check_liveness env i (g_pPipeline w) image)
    as [[r o2]|e2]; simpl.
  2:{ eexists. split; [now rewrite <- app_assoc|]. eexists.
      split; [reflexivity|]. intros ? ? H. inversion H; subst. eauto. }
  destruct (image_destroy env i image) as [[]|e3]; simpl;
    (eexists; split; [now rewrite <- !app_assoc|]; eexists;
     split; [reflexivity|]; intros ? ? H; inversion H; subst; eauto).
Qed.

Lemma attempt_loop_head env path st w :
  exists t1, log (snd (attempt_loop env path st w)) = (log w ++ t1)%list /\
    exists t, t1 = EvImageCreatePath path :: t /\
      forall image o, image_create_path env 0 path = Returns (image, o) ->
        exists t', t = EvCheckLiveness (g_pPipeline w) image :: t'.
Proof.
  unfold attempt_loop. rewrite attempts_unfold.
  destruct (attempt_head env 0%Z path st w) as (t1 & L1 & H1).
  destruct (attempt env 0 path st w) as [[st1|e] w1]; simpl in L1.
  2:{ now exists t1. }
  destruct (_stricmp (msg st1) license =? 0)%Z.
  2:{ now exists t1. }
  destruct (reset_run env 0%Z w1) as (t2 & (L2 & _) & _).
  destruct (reset_pipeline env 0 w1) as [[[]|e] w1']; simpl in L2.
  2:{ exists (t1 ++ t2)%list. simpl. rewrite L2, L1, <- app_assoc.
      split; [reflexivity | now apply opens_with_app]. }
  destruct (attempts_run env path 1 (0 + 1)%Z st1 w1') as (t3 & (L3 & _) & _).
  exists (t1 ++ t2 ++ t3)%list.
  rewrite L3, L2, L1, <- !app_assoc.
  split; [reflexivity | now apply opens_with_app].
Qed.

(** The second [try] block opens with [image_create_path(filePath)] and,
    when that returns, with the liveness check. *)
Lemma process_head env inv path w :
  exists t1, log (snd (process env inv path w)) = (log w ++ t1)%list /\
    exists t, t1 = EvImageCreatePath path :: t /\
      forall image o, image_create_path env 0 path = Returns (image, o) ->
        exists t', t = EvCheckLiveness (g_pPipeline w) image :: t'.
Proof.
  destruct (attempt_loop_head env path (initial_locals inv) w)
    as (t1 & L & H).
  destruct (attempt_loop env path (initial_locals inv) w)
    as [[st|e] w2] eqn:Hloop; simpl in L.
  - rewrite (process_after_loop _ _ _ _ _ _ Hloop). simpl.
    destruct (stringify env (build_root st)) as [out|[y|y]]; simpl;
      eexists; (split; [rewrite L, <- ?app_assoc; reflexivity|]);
      now apply opens_with_app.
  - rewrite (process_after_fault _ _ _ _ _ _
               (respond_after_loop_fault _ _ _ _ _ _ Hloop)).
    exists t1. now destruct e.
Qed.

(** C6: when the multipart parser, the JSON parser or the base64 decoder
    fails on the body, the handler goes on with an empty buffer: it
    writes the empty buffer to the temporary file and then calls the
    engine on that file, first [image_create_path] and, when that
    returns, the liveness check. *)
Theorem C6_failed_parse_gives_empty_payload ndebug env inv w text :
  ndebug && no_license w inv = false ->
  (base64 inv = 0%Z /\
   multipart_fileData env (request_body inv) = Throws (PocoException text)) \/
  (base64 inv <> 0%Z /\
   json_image env (request_body inv) = Throws (PocoException text)) \/
  (base64 inv <> 0%Z /\ exists encoded,
   json_image env (request_body inv) = Returns encoded /\
   base64_decode env encoded = Throws (PocoException text)) ->
  let path := filePath_of inv in
  exists w0 w1,
    ingest env inv w = (Throws (PocoException text), w0) /\
    stage env inv w = (Returns path, w1) /\
    files w1 !! path = Some "" /\
    log w1 = (log w0 ++ [EvWriteFile path ""])%list /\
    exists t,
      log (snd (OnProcessProc ndebug env inv w)) =
        (log w1 ++ EvImageCreatePath path :: t)%list /\
      forall image o, image_create_path env 0 path = Returns (image, o) ->
        exists t', t = EvCheckLiveness (g_pPipeline w) image :: t'.
Proof.
  intros Hgate Hfail path.
  assert (Hingest : exists w0,
             ingest env inv w = (Throws (PocoException text), w0) /\
             g_pPipeline w0 = g_pPipeline w).
  { unfold ingest, bind, call.
    destruct Hfail as [(Hm & H) | [(Hm & H) | (Hm & s & Hs & H)]].
    - rewrite Hm. simpl. rewrite H. eauto.
    - apply Z.eqb_neq in Hm. rewrite Hm, H. eauto.
    - apply Z.eqb_neq in Hm. rewrite Hm, Hs. simpl. rewrite H. eauto. }
  destruct Hingest as (w0 & Hingest & Hpipe).
  assert (Hstage : stage env inv w =
                   (Returns path, snd (write_file path "" w0)))
    by (rewrite stage_after_ingest, Hingest; reflexivity).
  exists w0, (snd (write_file path "" w0)).
  split; [exact Hingest | split; [exact Hstage | split; [|split]]].
  - simpl. apply lookup_insert_eq.
  - reflexivity.
  - rewrite (OnProcessProc_staged _ _ _ _ _ _ Hgate Hstage).
    destruct (process_head env inv path (snd (write_file path "" w0)))
      as (t1 & L & t & -> & H).
    exists t. split; [exact L|]. simpl in H. now rewrite Hpipe in H.
Qed.

Lemma C6_witness :
  exists w1,
    stage Stub.bad_body (Stub.upload 1 "{") Stub.licensed =
      (Returns "5output_file.dat", w1) /\
    files w1 !! "5output_file.dat" = Some "".
Proof.
  assert (Hgate : true && no_license Stub.licensed (Stub.upload 1 "{") = false)
    by reflexivity.
  assert (Hmode : base64 (Stub.upload 1 "{") <> 0%Z) by discriminate.
  assert (Hjson : json_image Stub.bad_body (request_body (Stub.upload 1 "{"))
                  = Throws (PocoException "JSON syntax error"))
    by reflexivity.
  pose proof (C6_failed_parse_gives_empty_payload true Stub.bad_body
                (Stub.upload 1 "{") Stub.licensed "JSON syntax error" Hgate
                (or_intror (or_introl (conj Hmode Hjson)))) as H.
  cbv zeta in H. destruct H as (w0 & w1 & _ & Hstage & Hfile & _).
  exists w1. split; [exact Hstage | exact Hfile].
Defined.

(** The empty file reaches the engine, which answers as it likes; here
    the request still ends in a 200 that carries the engine's message. *)
Example bad_body_is_processed :
  let run := OnProcessProc true Stub.bad_body (Stub.upload 1 "{")
               Stub.licensed in
  option_map status (match fst run with Returns r => Some r | _ => None end)
    = Some 200%Z /\
  take 5 (log (snd run)) =
    [EvJsonImage "{"; EvWriteFile "5output_file.dat" "";
     EvImageCreatePath "5output_file.dat"; EvCheckLiveness 1%nat 0%nat;
     EvImageDestroy 0%nat] /\
  map (fun root : gmap string JValue => root !! "state ")
      (roots (log (snd run))) = [Some (JString "Image is null")].
Proof. vm_compute. repeat split. Qed.

(** ** The answer *)

Lemma state_in_root st :
  build_root st !! "state " =
    Some (JString (if (err st =? STATUS_value OK)%Z then "OK"
                   else c_str (msg st))).
Proof.
  unfold build_root.
  destruct (err st =? STATUS_value OK)%Z; now rewrite lookup_insert_eq.
Qed.

Lemma numbers_in_root st :
  build_root st !! "score " =
    Some (JNumber (l_score (liveness_result (result st)))) /\
  build_root st !! "probability " =
    Some (JNumber (l_probability (liveness_result (result st)))) /\
  build_root st !! "quality " =
    Some (JNumber (q_score (quality_result (result st)))).
Proof.
  unfold build_root.
  repeat split;
    destruct (err st =? STATUS_value OK)%Z;
    (rewrite lookup_insert_ne by discriminate);
    destruct (PrimFloat.ltb _ _);
    try destruct (PrimFloat.leb _ _);
    (rewrite lookup_insert_ne by discriminate);
    repeat (rewrite lookup_insert_ne by discriminate);
    now rewrite lookup_insert_eq.
Qed.

(** C7, as the code has it: on the path without fault the answer is a
    200; its "state " is "OK" when the error code left by the last
    attempt is OK and the engine's message otherwise, so that "state " reads
    "OK" exactly when the code is OK or the message itself reads "OK"; the
    three numbers are those of the last attempt, whatever the code. *)
Theorem C7_state_field ndebug env inv w path w1 st w2 out :
  ndebug && no_license w inv = false ->
  stage env inv w = (Returns path, w1) ->
  attempt_loop env path (initial_locals inv) w1 = (Returns st, w2) ->
  stringify env (build_root st) = Returns out ->
  let root := build_root st in
  fst (OnProcessProc ndebug env inv w) = Returns (json_response out) /\
  status (json_response out) = 200%Z /\
  (err st = STATUS_value OK -> root !! "state " = Some (JString "OK")) /\
  (err st <> STATUS_value OK ->
   root !! "state " = Some (JString (c_str (msg st)))) /\
  (root !! "state " = Some (JString "OK") <->
   err st = STATUS_value OK \/ c_str (msg st) = "OK") /\
  root !! "score " = Some (JNumber (l_score (liveness_result (result st)))) /\
  root !! "probability " =
    Some (JNumber (l_probability (liveness_result (result st)))) /\
  root !! "quality " = Some (JNumber (q_score (quality_result (result st)))).
Proof.
  intros Hgate Hstage Hloop Hout root. subst root.
  split; [|split; [reflexivity|]].
  { rewrite (OnProcessProc_staged _ _ _ _ _ _ Hgate Hstage).
    rewrite (process_after_loop _ _ _ _ _ _ Hloop). simpl.
    now rewrite Hout. }
  rewrite state_in_root.
  destruct (numbers_in_root st) as (N1 & N2 & N3).
  destruct (Z.eqb_spec (err st) (STATUS_value OK)) as [E|E].
  - split; [reflexivity|]. split; [contradiction|].
    split; [split; [now left | reflexivity]|]. now repeat split.
  - split; [contradiction|]. split; [reflexivity|].
    split; [|now repeat split]. split.
    + intros H. right. now inversion H.
    + intros [H|H]; [contradiction | now rewrite H].
Qed.

(** An engine that answers "Face not found". *)
Lemma C7_witness :
  fst (OnProcessProc true Stub.no_face (Stub.upload 0 "img") Stub.licensed) =
    Returns (json_response "{}") /\
  status (json_response "{}") = 200%Z.
Proof.
  evaluate (stage Stub.no_face (Stub.upload 0 "img") Stub.licensed) Hstage.
  match type of Hstage with _ = (Returns ?path, ?w1) =>
    evaluate (attempt_loop Stub.no_face path
                (initial_locals (Stub.upload 0 "img")) w1) Hloop
  end.
  pose proof (fun Hgate =>
    C7_state_field true _ _ _ _ _ _ _ "{}" Hgate Hstage Hloop eq_refl) as H.
  destruct (H eq_refl) as (H1 & H2 & _). split; [exact H1 | exact H2].
Defined.

(** C7 as the claim words it fails: with an engine that reports an error
    code other than OK together with the message "OK", "state " is "OK". *)
Lemma C7_counterexample :
  option_map err (final_attempt true Stub.error_reading_OK
                    (Stub.upload 0 "img") Stub.licensed) =
    Some (STATUS_value LICENSE_ERROR) /\
  STATUS_value LICENSE_ERROR <> STATUS_value OK /\
  map (fun root : gmap string JValue => root !! "state ")
      (roots (log (snd (OnProcessProc true Stub.error_reading_OK
                          (Stub.upload 0 "img") Stub.licensed)))) =
    [Some (JString "OK")].
Proof.
  split; [vm_compute; reflexivity | split; [discriminate|]].
  vm_compute. reflexivity.
Qed.

(** An engine error still answers 200, with the message as "state ". *)
Example engine_error_is_200 :
  let run := OnProcessProc true Stub.no_face (Stub.upload 0 "img")
               Stub.licensed in
  option_map status (match fst run with Returns r => Some r | _ => None end)
    = Some 200%Z /\
  map (fun root : gmap string JValue => root !! "state ")
      (roots (log (snd run))) = [Some (JString "Face not found")].
Proof. vm_compute. repeat split. Qed.

(** ** Faults *)

(** No exception of the Poco classes leaves the handler. *)
Lemma OnProcessProc_never_throws_Poco ndebug env inv w text :
  fst (OnProcessProc ndebug env inv w) <> Throws (PocoException text).
Proof.
  unfold OnProcessProc.
  destruct (ndebug && no_license w inv); [discriminate|].
  unfold bind. rewrite stage_after_ingest.
  destruct (ingest env inv w) as [[data|[x|x]] w0]; try discriminate;
    unfold process, try_catch_Exception;
    match goal with
    | |- context [respond ?e ?i ?p ?w] =>
        destruct (respond e i p w) as [[r|[y|y]] w2]; discriminate
    end.
Qed.

(** C8, as the code has it: a fault of the class [Exception] of Poco
    raised between the first attempt and the removal of the file is
    caught by the handler, which answers 409 with the display text as
    body; a fault of any other class is not caught and leaves the
    handler. *)
Theorem C8_fault_at_the_boundary ndebug env inv w path w1 e w2 :
  ndebug && no_license w inv = false ->
  stage env inv w = (Returns path, w1) ->
  respond env inv path w1 = (Throws e, w2) ->
  match e with
  | PocoException displayText =>
      OnProcessProc ndebug env inv w =
        (Returns (conflict_response displayText), w2) /\
      status (conflict_response displayText) = 409%Z /\
      body (conflict_response displayText) = displayText
  | OtherException what =>
      OnProcessProc ndebug env inv w = (Throws (OtherException what), w2)
  end /\
  forall text, fst (OnProcessProc ndebug env inv w) <>
               Throws (PocoException text).
Proof.
  intros Hgate Hstage Hfault.
  split; [|intros text; apply OnProcessProc_never_throws_Poco].
  rewrite (OnProcessProc_staged _ _ _ _ _ _ Hgate Hstage).
  rewrite (process_after_fault _ _ _ _ _ _ Hfault).
  destruct e; repeat split.
Qed.

Lemma C8_witness :
  fst (OnProcessProc true Stub.unprintable (Stub.upload 0 "img")
         Stub.licensed) =
    Returns (conflict_response "Cannot stringify").
Proof.
  evaluate (stage Stub.unprintable (Stub.upload 0 "img") Stub.licensed) Hstage.
  match type of Hstage with _ = (Returns ?path, ?w1) =>
    evaluate (respond Stub.unprintable (Stub.upload 0 "img") path w1) Hfault
  end.
  pose proof (fun Hgate =>
    C8_fault_at_the_boundary true _ _ _ _ _ _ _ Hgate Hstage Hfault) as H.
  destruct (H eq_refl) as ((H1 & _) & _). now rewrite H1.
Defined.

(** C8 as the claim words it fails: an exception that is not of the Poco
    classes, raised while the answer is put together or by the liveness
    check, is not turned into a 409; it leaves the handler. *)
Lemma C8_counterexample :
  fst (OnProcessProc true Stub.out_of_memory (Stub.upload 0 "img")
         Stub.licensed) = Throws (OtherException "std::bad_alloc") /\
  fst (OnProcessProc true (Stub.faulting (OtherException "unknown error"))
         (Stub.upload 0 "img") Stub.licensed) =
    Throws (OtherException "unknown error").
Proof. split; vm_compute; reflexivity. Qed.

(** ** The temporary file *)

(** Engine calls remove no file. *)
Lemma engine_calls_remove_nothing path t :
  forallb is_engine_call t = true -> count (is_remove path) t = 0%nat.
Proof.
  induction t as [|e t IH]; [reflexivity|].
  simpl. intros F. apply andb_true_iff in F as (Fe & Ft).
  destruct e; try discriminate; simpl; auto.
Qed.

(** On the path without fault the file is removed, once. *)
Lemma answered_request_removes_file env inv path w1 st w2 out :
  attempt_loop env path (initial_locals inv) w1 = (Returns st, w2) ->
  stringify env (build_root st) = Returns out ->
  exists t,
    log (snd (process env inv path w1)) = (log w1 ++ t)%list /\
    count (is_remove path) t = 1%nat /\
    files (snd (process env inv path w1)) !! path = None.
Proof.
  intros Hloop Hout.
  destruct (attempts_run env path 2 0%Z (initial_locals inv) w1)
    as (t & (L & F & _ & S) & _).
  fold (attempt_loop env path (initial_locals inv)) in *.
  rewrite Hloop in *. simpl in *.
  rewrite (process_after_loop _ _ _ _ _ _ Hloop), Hout. simpl.
  exists (t ++ [EvStringify (build_root st); EvRemove path])%list.
  split; [rewrite L, <- !app_assoc; reflexivity | split].
  - rewrite count_app. simpl. rewrite String.eqb_refl.
    rewrite (engine_calls_remove_nothing path t F). lia.
  - apply lookup_delete_eq.
Qed.

(** When the second [try] block ends in an exception the file is still
    there: nothing has removed it, and the [catch] does not either. *)
Lemma fault_keeps_file env inv path w1 e w2 :
  respond env inv path w1 = (Throws e, w2) ->
  files (snd (process env inv path w1)) = files w1 /\
  exists t, log (snd (process env inv path w1)) = (log w1 ++ t)%list /\
            count (is_remove path) t = 0%nat.
Proof.
  intros Hfault.
  rewrite (process_after_fault _ _ _ _ _ _ Hfault).
  assert (Hw2 : files w2 = files w1 /\
                exists t, log w2 = (log w1 ++ t)%list /\
                          count (is_remove path) t = 0%nat).
  { destruct (attempts_run env path 2 0%Z (initial_locals inv) w1)
      as (t & (L & F & _ & S) & _).
    fold (attempt_loop env path (initial_locals inv)) in *.
    pose proof (engine_calls_remove_nothing path t F) as H0.
    unfold respond in Hfault. unfold bind at 1 in Hfault.
    destruct (attempt_loop env path (initial_locals inv) w1)
      as [[st|x] w'] eqn:Hloop; simpl in *.
    - unfold bind, call, remove, ret in Hfault. simpl in Hfault.
      destruct (stringify env (build_root st)) as [out|y];
        inversion Hfault; subst. simpl. split; [assumption|].
      exists (t ++ [EvStringify (build_root st)])%list.
      rewrite L, <- app_assoc, count_app. simpl. split; [reflexivity | lia].
    - inversion Hfault; subst. split; [assumption|]. now exists t. }
  destruct e; exact Hw2.
Qed.

(** C4 fails on the code: when the stringifier, or the liveness check,
    raises an exception of the Poco classes, the handler answers 409 and
    the temporary file of the request is still on disk; no call has
    removed it. *)
Theorem C4_fault_leaves_staged_file :
  let late := OnProcessProc true Stub.unprintable (Stub.upload 0 "img")
                Stub.licensed in
  let early := OnProcessProc true (Stub.faulting (PocoException "boom"))
                 (Stub.upload 0 "img") Stub.licensed in
  fst late = Returns (conflict_response "Cannot stringify") /\
  files (snd late) !! "5output_file.dat" = Some "img" /\
  count (is_remove "5output_file.dat") (log (snd late)) = 0%nat /\
  fst early = Returns (conflict_response "boom") /\
  files (snd early) !! "5output_file.dat" = Some "img" /\
  count (is_remove "5output_file.dat") (log (snd early)) = 0%nat.
Proof. vm_compute. repeat split. Qed.

(** ** The base64 body *)

Lemma decoder_inputs_app l1 l2 :
  decoder_inputs (l1 ++ l2) = (decoder_inputs l1 ++ decoder_inputs l2)%list.
Proof.
  induction l1 as [|e l1 IH]; [reflexivity|].
  destruct e; simpl; now rewrite ?IH.
Qed.

(** In the base64 mode the string found under "image" goes to the decoder
    as it is, line breaks included; the handler never calls [replaceAll].
    A body whose string has CRLF in it and a body with the stripped string
    are staged alike whenever the decoder itself gives the two strings
    the same bytes. *)
Lemma field_reaches_decoder_unchanged env inv w encoded :
  base64 inv <> 0%Z ->
  json_image env (request_body inv) = Returns encoded ->
  ingest env inv w =
    (base64_decode env encoded,
     log_event (EvBase64Decode encoded)
       (log_event (EvJsonImage (request_body inv)) w)) /\
  decoder_inputs (log (snd (ingest env inv w))) =
    (decoder_inputs (log w) ++ [encoded])%list /\
  forall inv' stripped,
    base64 inv' <> 0%Z -> clock inv' = clock inv ->
    json_image env (request_body inv') = Returns stripped ->
    replaceAll encoded CRLF "" = Some stripped ->
    base64_decode env encoded = base64_decode env stripped ->
    fst (stage env inv w) = fst (stage env inv' w) /\
    files (snd (stage env inv w)) = files (snd (stage env inv' w)).
Proof.
  intros Hmode Hjson.
  assert (Hingest : forall i s,
    base64 i <> 0%Z -> json_image env (request_body i) = Returns s ->
    ingest env i w =
      (base64_decode env s,
       log_event (EvBase64Decode s)
         (log_event (EvJsonImage (request_body i)) w))).
  { intros i s Hi Hs. unfold ingest, bind, call.
    apply Z.eqb_neq in Hi. now rewrite Hi, Hs. }
  split; [now apply Hingest | split].
  - rewrite (Hingest _ _ Hmode Hjson). simpl.
    rewrite !decoder_inputs_app. simpl. now rewrite app_nil_r.
  - intros inv' stripped Hmode' Hclock Hjson' _ Hsame.
    rewrite !stage_after_ingest.
    rewrite (Hingest _ _ Hmode Hjson), (Hingest _ _ Hmode' Hjson').
    unfold filePath_of. rewrite Hclock, Hsame.
    destruct (base64_decode env stripped) as [d|[x|x]]; simpl; now split.
Qed.

(** The handler does not call [replaceAll]: for a body whose "image"
    string has a CRLF in it, the string that reaches the decoder is that
    string, CRLF included. *)
Example decoder_is_handed_the_line_breaks :
  decoder_inputs
    (log (snd (OnProcessProc true (Stub.steady 0.5 0.5)
                 (Stub.upload 1 Stub.wrapped) Stub.licensed))) =
    [Stub.wrapped] /\
  replaceAll Stub.wrapped CRLF "" = Some "QUJDREVG" /\
  Stub.wrapped <> "QUJDREVG".
Proof.
  split; [vm_compute; reflexivity | split; [vm_compute; reflexivity|]].
  discriminate.
Qed.

(** [replaceAll] by itself: one pass from left to right, so an
    occurrence that only forms once a pair is taken out stays; and with
    an empty search string the loop does not end. *)
Example replaceAll_runs :
  replaceAll ("QUJD" +:+ CRLF +:+ "REVG" +:+ CRLF) CRLF "" = Some "QUJDREVG" /\
  replaceAll (String CR (String CR (String LF (String LF "")))) CRLF "" =
    Some CRLF /\
  replaceAll "aaa" "a" "aa" = Some "aaaaaa" /\
  replaceAll_loop 50 "abc" "" "x" 0 = None.
Proof. vm_compute. repeat split. Qed.

(** ** The license cache *)

Lemma serve_keeps_license ndebug reqs : forall w,
  lv_pstRes (snd (serve ndebug reqs w)) = lv_pstRes w.
Proof.
  induction reqs as [|[env inv] reqs IH]; intros w; simpl; [reflexivity|].
  destruct (OnProcessProc_run ndebug env inv w) as (_ & _ & _ & S).
  destruct (OnProcessProc ndebug env inv w) as [r w1]. simpl in S.
  specialize (IH w1). destruct (serve ndebug reqs w1) as [rs w2].
  simpl in *. congruence.
Qed.

(** C10: at the start of the service, with the cache still empty, launch
    reads the license once, before it creates the refresh thread and
    before it enters the server loop; the cache holds what was read, or
    stays empty when the read returned zero or less.  The handlers do not
    write the cache and the thread sleeps before its first read, so the
    requests served until then see what launch left. *)
Theorem C10_launch_snapshot lic fresh w :
  lv_pstRes w = None ->
  let answer :=
    mil_read_license lic {| m_nProduct := GD_PRODUCT_LIVENESS_FACE lic;
                            m_lExpire := m_lExpire fresh |} in
  let started := launch lic fresh w in
  log started = (log w ++ [EvReadLicense (GD_PRODUCT_LIVENESS_FACE lic);
                           EvCreateThread; EvRun])%list /\
  lv_pstRes started =
    (if (fst answer <=? 0)%Z then None else Some (snd answer)) /\
  (forall ndebug reqs,
      lv_pstRes (snd (serve ndebug reqs started)) = lv_pstRes started) /\
  (forall ndebug reqs lic2,
      let served := snd (serve ndebug reqs started) in
      exists t, log (TF_READ_LIC_turn lic2 served) =
                (log served ++ EvSleep 10000 :: t)%list).
Proof.
  intros Hnull answer started. subst answer started. unfold launch.
  rewrite Hnull.
  split; [simpl; now rewrite <- !app_assoc | split; [reflexivity | split]].
  - intros ndebug reqs. apply serve_keeps_license.
  - intros ndebug reqs lic2. cbv zeta. unfold TF_READ_LIC_turn. simpl.
    eexists. now rewrite <- app_assoc.
Qed.

Lemma C10_witness :
  lv_pstRes (launch (Stub.store 1 5000) {| m_nProduct := 0; m_lExpire := 0 |}
               Stub.unlicensed_world) =
    Some {| m_nProduct := 3; m_lExpire := 5000 |} /\
  log (launch (Stub.store 1 5000) {| m_nProduct := 0; m_lExpire := 0 |}
         Stub.unlicensed_world) = [EvReadLicense 3; EvCreateThread; EvRun].
Proof.
  destruct (C10_launch_snapshot (Stub.store 1 5000)
              {| m_nProduct := 0; m_lExpire := 0 |} Stub.unlicensed_world
              eq_refl) as (H1 & H2 & _).
  split; [exact H2 | exact H1].
Defined.

(** A read that returns zero leaves the cache empty, and a request that
    comes next is turned away in a build with NDEBUG. *)
Example launch_without_license :
  let started :=
    launch (Stub.store 0 5000) {| m_nProduct := 0; m_lExpire := 0 |}
      Stub.unlicensed_world in
  lv_pstRes started = None /\
  fst (OnProcessProc true (Stub.steady 0.5 0.5) (Stub.upload 0 "img") started)
    = fst (OnNoLicense started).
Proof. vm_compute. repeat split. Qed.

(** The refresh thread replaces the cache by what each read returns. *)
Lemma TF_READ_LIC_turn_cache lic w :
  let p := {| m_nProduct := GD_PRODUCT_LIVENESS_FACE lic; m_lExpire := 0 |} in
  lv_pstRes (TF_READ_LIC_turn lic w) =
    cache_after (fst (mil_read_license lic p)) (snd (mil_read_license lic p)).
Proof. reflexivity. Qed.

(** ** The refresh thread against a handler *)

(** A handler that makes its two loads while the refresh thread stands
    still reads a whole record. *)
Lemma undisturbed_read_is_sound lic now_c c :
  Race.settled (Race.shared c) -> Race.reader c = Race.RTestNull ->
  Race.reads_sound
    (Race.run lic now_c [Race.Reader; Race.Reader] c).
Proof.
  unfold Race.settled, Race.reads_sound, Race.run. simpl.
  intros Hsettled ->. unfold Race.reader_step at 2.
  destruct (Nat.eqb (Race.ptr (Race.shared c)) 0) eqn:E; simpl; [exact I|].
  rewrite E. destruct Hsettled as [H0 | (r & Hr)].
  - apply Nat.eqb_neq in E. contradiction.
  - rewrite Hr. now destruct (m_lExpire r <? now_c)%Z.
Qed.

(** C9 fails on the code: no lock is taken on either side, and a handler
    that has found [lv_pstRes] not NULL can go on to read the expiry from
    a record the refresh thread has freed in between, through the pointer
    the thread has set to NULL in between, or from a record the thread
    has allocated and not yet filled. *)
Theorem C9_handler_reads_freed_record :
  Race.reader (Race.run (Stub.store 0 0) 1000
                 [Race.Reader; Race.Writer; Race.Writer; Race.Reader]
                 Stub.cached) = Race.RReadFreed 1 /\
  ~ Race.reads_sound (Race.run (Stub.store 0 0) 1000
                        [Race.Reader; Race.Writer; Race.Writer; Race.Reader]
                        Stub.cached) /\
  Race.reader (Race.run (Stub.store 0 0) 1000
                 [Race.Reader; Race.Writer; Race.Writer; Race.Writer;
                  Race.Reader]
                 Stub.cached) = Race.RReadNull /\
  Race.reader (Race.run (Stub.store 1 5000) 1000
                 [Race.Writer; Race.Writer; Race.Reader; Race.Reader]
                 Stub.empty_cache) = Race.RReadUnwritten 1 /\
  Race.reader (Race.run (Stub.store 0 0) 1000
                 [Race.Reader; Race.Reader; Race.Writer; Race.Writer]
                 Stub.cached) = Race.RProceed.
Proof.
  split; [vm_compute; reflexivity|].
  split; [vm_compute; tauto|].
  split; [vm_compute; reflexivity|].
  split; vm_compute; reflexivity.
Qed.

(** ** [replaceAll] ends when the search string is not empty *)

Section ReplaceAllFacts.

Lemma length_append (a b : string) :
  String.length (String.append a b) = (String.length a + String.length b)%nat.
Proof. induction a as [|c a IH]; simpl; [reflexivity | now rewrite IH]. Qed.

Lemma length_substring (s : string) : forall n m,
  (n + m <= String.length s)%nat -> String.length (String.substring n m s) = m.
Proof.
  induction s as [|c s IH]; intros [|n] [|m] H; simpl in *;
    try reflexivity; try lia.
  - rewrite (IH 0%nat m); [reflexivity | simpl; lia].
  - apply IH. lia.
  - apply IH. lia.
Qed.

Lemma prefix_length (a s : string) :
  String.prefix a s = true -> (String.length a <= String.length s)%nat.
Proof.
  revert s. induction a as [|c a IH]; intros [|d s] H; simpl in *;
    try lia; try discriminate.
  destruct (Ascii.ascii_dec c d); [|discriminate].
  specialize (IH _ H). lia.
Qed.

(** What [find] returns lies at or after [pos], and the match fits. *)
Lemma find_bounds (search s : string) : forall pos p,
  find s search pos = Some p ->
  (pos <= p)%nat /\ (p + String.length search <= String.length s)%nat.
Proof.
  induction s as [|c s IH]; intros [|pos] p H.
  - change (find "" search 0) with
      (if String.prefix search "" then Some 0%nat else None) in H.
    destruct (String.prefix search "") eqn:E; [|discriminate].
    inversion H; subst. apply prefix_length in E. simpl in *. lia.
  - discriminate.
  - change (find (String c s) search 0) with
      (if String.prefix search (String c s) then Some 0%nat
       else option_map S (find s search 0)) in H.
    destruct (String.prefix search (String c s)) eqn:E.
    + inversion H; subst. apply prefix_length in E. simpl in *. lia.
    + destruct (find s search 0) as [q|] eqn:F; [|discriminate].
      inversion H; subst. destruct (IH _ _ F). simpl. lia.
  - change (find (String c s) search (S pos)) with
      (option_map S (find s search pos)) in H.
    destruct (find s search pos) as [q|] eqn:F; [|discriminate].
    inversion H; subst. destruct (IH _ _ F). simpl. lia.
Qed.

Lemma length_replace (s r : string) p len :
  (p + len <= String.length s)%nat ->
  String.length (replace s p len r) =
    (String.length s - len + String.length r)%nat.
Proof.
  intros H. unfold replace. rewrite !length_append.
  rewrite length_substring by (simpl; lia).
  rewrite length_substring by lia. lia.
Qed.

Lemma replaceAll_loop_ends (search replace_ : string) :
  search <> "" ->
  forall fuel original pos,
    (String.length original - pos < fuel)%nat ->
    exists r, replaceAll_loop fuel original search replace_ pos = Some r.
Proof.
  intros Hsearch.
  assert (Hlen : (1 <= String.length search)%nat)
    by (destruct search; [contradiction | simpl; lia]).
  induction fuel as [|fuel IH]; intros original pos H; [lia|].
  simpl. destruct (find original search pos) as [p|] eqn:F; [|eauto].
  destruct (find_bounds _ _ _ _ F) as (Hp & Hfit).
  apply IH. rewrite length_replace by assumption. lia.
Qed.

(** For a search string that is not empty [replaceAll] returns. *)
Lemma replaceAll_returns (original search replace_ : string) :
  search <> "" -> exists r, replaceAll original search replace_ = Some r.
Proof.
  intros H. apply replaceAll_loop_ends; [assumption | lia].
Qed.

End ReplaceAllFacts.

(** ** [replaceAll] is one pass from left to right *)

Section ReplaceAllMeaning.

Variables search replace_ : string.

Lemma append_cons (x : ascii) (a b : string) :
  String.append (String x a) b = String x (String.append a b).
Proof. reflexivity. Qed.

Lemma append_nil_l (b : string) : String.append "" b = b.
Proof. reflexivity. Qed.

Lemma append_assoc (a b c : string) :
  String.append (String.append a b) c = String.append a (String.append b c).
Proof.
  induction a as [|x a IH]; [reflexivity|].
  rewrite !append_cons. now rewrite IH.
Qed.

Lemma substring_whole (a : string) : String.substring 0 (String.length a) a = a.
Proof. induction a as [|x a IH]; simpl; [reflexivity | now rewrite IH]. Qed.

Lemma substring_head_app (a b : string) :
  String.substring 0 (String.length a) (String.append a b) = a.
Proof.
  induction a as [|x a IH]; [now destruct b|].
  rewrite append_cons. simpl. now rewrite IH.
Qed.

Lemma substring_skip_app (a b : string) k m :
  String.substring (String.length a + k) m (String.append a b) =
  String.substring k m b.
Proof.
  induction a as [|x a IH]; [reflexivity|]. rewrite append_cons. exact IH.
Qed.

Lemma substring_drop (b : string) : forall k,
  String.substring k (String.length b - k) b = string_drop k b.
Proof.
  induction b as [|x b IH]; intros [|k]; simpl; try reflexivity.
  - now rewrite substring_whole.
  - apply IH.
Qed.

Lemma length_string_drop (b : string) : forall k,
  String.length (string_drop k b) = (String.length b - k)%nat.
Proof.
  induction b as [|x b IH]; intros [|k]; simpl; try reflexivity. apply IH.
Qed.

Lemma prefix_drop (a s : string) :
  String.prefix a s = true ->
  s = String.append a (string_drop (String.length a) s).
Proof.
  revert s. induction a as [|c a IH]; intros s H; [reflexivity|].
  destruct s as [|d s]; simpl in H; [discriminate|].
  destruct (Ascii.ascii_dec c d) as [->|]; [|discriminate].
  rewrite append_cons. simpl. now rewrite <- (IH _ H).
Qed.

Lemma find_from_0 (t : string) :
  find t search 0 =
    if String.prefix search t then Some 0%nat
    else match t with
         | EmptyString => None
         | String _ t' => option_map S (find t' search 0)
         end.
Proof. destruct t; reflexivity. Qed.

Lemma find_app_skip (a t : string) :
  find (String.append a t) search (String.length a) =
  option_map (fun p => (String.length a + p)%nat) (find t search 0).
Proof.
  induction a as [|x a IH].
  - rewrite append_nil_l. simpl. destruct (find t search 0); reflexivity.
  - rewrite append_cons. simpl String.length.
    change (find (String x (String.append a t)) search (S (String.length a)))
      with (option_map S (find (String.append a t) search (String.length a))).
    rewrite IH. destruct (find t search 0); reflexivity.
Qed.

Lemma substitute_step fuel (s : string) :
  substitute (S fuel) s search replace_ =
    if String.prefix search s then
      String.append replace_
        (substitute fuel (string_drop (String.length search) s)
           search replace_)
    else
      match s with
      | EmptyString => EmptyString
      | String c s' => String c (substitute fuel s' search replace_)
      end.
Proof. reflexivity. Qed.

Hypothesis search_not_empty : search <> "".

Lemma search_length : (1 <= String.length search)%nat.
Proof. destruct search; [contradiction | simpl; lia]. Qed.

Lemma substitute_enough_fuel : forall n t,
  (String.length t <= n)%nat ->
  substitute n t search replace_ =
  substitute (String.length t) t search replace_.
Proof.
  induction n as [n IH] using lt_wf_ind. intros t Hn.
  destruct n as [|n].
  - destruct t; [reflexivity | simpl in Hn; lia].
  - destruct (String.length t) as [|m] eqn:Ht.
    + destruct t; [|discriminate]. simpl.
      destruct search; [contradiction | reflexivity].
    + rewrite !substitute_step. destruct (String.prefix search t) eqn:P.
      * pose proof search_length as Hs.
        pose proof (length_string_drop t (String.length search)) as Hd.
        rewrite (IH n) by lia. rewrite (IH m) by lia. reflexivity.
      * destruct t as [|c t]; [reflexivity|]. simpl in Ht.
        rewrite (IH n) by (simpl in Hn; lia).
        rewrite (IH m) by lia. reflexivity.
Qed.

Lemma find_none_substitute : forall n t,
  find t search 0 = None -> substitute n t search replace_ = t.
Proof.
  induction n as [|n IH]; intros t F; [reflexivity|].
  rewrite find_from_0 in F. rewrite substitute_step.
  destruct (String.prefix search t); [discriminate|].
  destruct t as [|c t]; [reflexivity|].
  destruct (find t search 0) eqn:F'; [discriminate|].
  now rewrite IH.
Qed.

Lemma find_some_substitute : forall t p n,
  find t search 0 = Some p -> (String.length t <= n)%nat ->
  exists mid rest,
    t = String.append mid rest /\ String.length mid = p /\
    String.prefix search rest = true /\
    substitute n t search replace_ =
      String.append mid (substitute (n - p) rest search replace_).
Proof.
  induction t as [|c t IH]; intros p n F Hn; rewrite find_from_0 in F.
  - destruct (String.prefix search "") eqn:P; [|discriminate].
    inversion F; subst. exists "", "". rewrite Nat.sub_0_r, append_nil_l.
    now repeat split.
  - destruct (String.prefix search (String c t)) eqn:P.
    + inversion F; subst. exists "", (String c t).
      rewrite Nat.sub_0_r, !append_nil_l. now repeat split.
    + destruct (find t search 0) as [q|] eqn:F'; [|discriminate].
      inversion F; subst. simpl in Hn.
      destruct n as [|n]; [lia|].
      destruct (IH q n eq_refl ltac:(lia)) as (mid & rest & -> & Hm & Hp & Hs).
      exists (String c mid), rest. rewrite !append_cons.
      split; [reflexivity|]. split; [simpl; now rewrite Hm|].
      split; [exact Hp|]. rewrite substitute_step, P. simpl. now rewrite Hs.
Qed.

Lemma replaceAll_loop_substitute : forall fuel pre t,
  (String.length t < fuel)%nat ->
  replaceAll_loop fuel (String.append pre t) search replace_
    (String.length pre) =
  Some (String.append pre
          (substitute (String.length t) t search replace_)).
Proof.
  induction fuel as [|fuel IH]; intros pre t Hfuel; [lia|].
  simpl. rewrite find_app_skip.
  destruct (find t search 0) as [p|] eqn:F; simpl.
  - destruct (find_some_substitute t p (String.length t) F (le_n _))
      as (mid & rest & -> & Hm & Hp & Hs).
    rewrite Hs. pose proof search_length as Hlen.
    pose proof (prefix_length _ _ Hp) as Hfit.
    rewrite length_append in *.
    set (rest' := string_drop (String.length search) rest).
    assert (Hrest : rest = String.append search rest')
      by (now apply prefix_drop).
    assert (Hlrest : String.length rest =
                     (String.length search + String.length rest')%nat).
    { unfold rest'. rewrite length_string_drop. lia. }
    assert (Hreplace :
      replace (String.append pre (String.append mid rest))
        (String.length pre + p) (String.length search) replace_ =
      String.append (String.append (String.append pre mid) replace_) rest').
    { unfold replace. rewrite <- (append_assoc pre mid rest).
      replace (String.length pre + p)%nat
        with (String.length (String.append pre mid))
        by (rewrite length_append; lia).
      rewrite substring_head_app.
      rewrite (substring_skip_app (String.append pre mid) rest).
      rewrite !length_append.
      replace (String.length pre + String.length mid + String.length rest -
               (String.length pre + String.length mid + String.length search))%nat
        with (String.length rest - String.length search)%nat by lia.
      rewrite substring_drop. fold rest'. now rewrite <- append_assoc. }
    rewrite Hreplace.
    replace (String.length pre + p + String.length replace_)%nat
      with (String.length (String.append (String.append pre mid) replace_))
      by (rewrite !length_append; lia).
    rewrite IH by lia.
    f_equal. rewrite !append_assoc. do 2 f_equal.
    replace (String.length mid + String.length rest - p)%nat
      with (S (String.length rest - 1)) by lia.
    rewrite substitute_step, Hp. fold rest'. f_equal.
    symmetry. apply substitute_enough_fuel. lia.
  - now rewrite find_none_substitute.
Qed.

End ReplaceAllMeaning.

(** X1: with a search string that is not empty [replaceAll] returns, and
    what it returns is the text read once from left to right, each
    occurrence of the search string met on the way replaced and the
    reading resumed behind it: occurrences do not overlap and the text
    put in is not searched again. *)
Theorem X1_replaceAll_is_one_pass (original search replace_ : string) :
  search <> "" ->
  replaceAll original search replace_ =
    Some (substitute (String.length original) original search replace_).
Proof.
  intros H. unfold replaceAll.
  apply (replaceAll_loop_substitute search replace_ H _ "" original). lia.
Qed.

Lemma X1_witness :
  replaceAll "aXbXXc" "X" "XX" = Some "aXXbXXXXc".
Proof.
  rewrite (X1_replaceAll_is_one_pass "aXbXXc" "X" "XX" ltac:(discriminate)).
  reflexivity.
Defined.

Lemma find_empty_search (s : string) : forall pos,
  (pos <= String.length s)%nat -> find s "" pos = Some pos.
Proof.
  induction s as [|c s IH]; intros [|pos] H; simpl in *; try reflexivity.
  - lia.
  - rewrite IH by lia. reflexivity.
Qed.

Lemma replaceAll_loop_spins (replace_ : string) : forall fuel s pos,
  (pos <= String.length s)%nat -> replaceAll_loop fuel s "" replace_ pos = None.
Proof.
  induction fuel as [|fuel IH]; intros s pos H; [reflexivity|].
  simpl. rewrite find_empty_search by assumption.
  apply IH. rewrite length_replace by (simpl; lia). simpl. lia.
Qed.

(** X2: with the empty search string the loop of [replaceAll] never
    ends: whatever the text and the replacement, no number of turns
    brings it to its [return]. *)
Theorem X2_replaceAll_empty_search_never_returns
    (original replace_ : string) (fuel : nat) :
  replaceAll_loop fuel original "" replace_ 0 = None.
Proof. apply replaceAll_loop_spins. lia. Qed.

Lemma substitute_same (search : string) :
  search <> "" ->
  forall n s, substitute n s search search = s.
Proof.
  intros Hs. induction n as [|n IH]; intros s; [reflexivity|].
  rewrite substitute_step. destruct (String.prefix search s) eqn:P.
  - rewrite IH. symmetry. now apply prefix_drop.
  - destruct s as [|c s]; [reflexivity|]. now rewrite IH.
Qed.

(** X3: replacing a string by itself gives the text back. *)
Theorem X3_replaceAll_by_itself (original search : string) :
  search <> "" -> replaceAll original search search = Some original.
Proof.
  intros H. unfold replaceAll.
  rewrite (replaceAll_loop_substitute search search H _ "" original) by lia.
  rewrite append_nil_l. now rewrite substitute_same.
Qed.

Lemma X3_witness : replaceAll "abcabc" "bc" "bc" = Some "abcabc".
Proof. exact (X3_replaceAll_by_itself "abcabc" "bc" ltac:(discriminate)). Defined.

Lemma find_none_without_occurrence (search : string) : forall t,
  (forall pre post,
      t <> String.append pre (String.append search post)) ->
  find t search 0 = None.
Proof.
  induction t as [|c t IH]; intros H; rewrite find_from_0.
  - destruct (String.prefix search "") eqn:P; [|reflexivity].
    exfalso. apply (H "" (string_drop (String.length search) "")).
    rewrite append_nil_l. now apply prefix_drop.
  - destruct (String.prefix search (String c t)) eqn:P.
    + exfalso.
      apply (H "" (string_drop (String.length search) (String c t))).
      rewrite append_nil_l. now apply prefix_drop.
    + rewrite IH; [reflexivity|].
      intros pre post E. apply (H (String c pre) post).
      rewrite append_cons. now rewrite E.
Qed.

(** X4: a text in which the search string does not occur comes back
    unchanged. *)
Theorem X4_replaceAll_without_occurrence (original search replace_ : string) :
  (forall pre post,
      original <> String.append pre (String.append search post)) ->
  replaceAll original search replace_ = Some original.
Proof.
  intros H. unfold replaceAll. simpl.
  now rewrite (find_none_without_occurrence search original H).
Qed.

Lemma X4_witness : replaceAll "x" "xy" "z" = Some "x".
Proof.
  apply X4_replaceAll_without_occurrence.
  intros [|c [|d pre]] post; rewrite ?append_cons, ?append_nil_l;
    discriminate.
Defined.

(** ** What the handler reads *)

Section Blind.

Context {A B : Type}.

Lemma same_view_refl w : same_view w w.
Proof. now split. Qed.

Lemma blind_ret (a : A) : blind (ret a).
Proof. intros w1 w2 H. now split. Qed.

Lemma blind_call (e : Event) (answer : outcome A) : blind (call e answer).
Proof. intros w1 w2 H. split; [reflexivity | exact H]. Qed.

Lemma blind_bind (m : M A) (k : A -> M B) :
  blind m -> (forall a, blind (k a)) -> blind (bind m k).
Proof.
  intros Hm Hk w1 w2 H. unfold bind.
  destruct (Hm w1 w2 H) as (E & V).
  destruct (m w1) as [[a1|e1] u1], (m w2) as [[a2|e2] u2];
    simpl in E, V; inversion E; subst; [now apply Hk | now split].
Qed.

Lemma blind_try (m : M A) (h : string -> M A) :
  blind m -> (forall text, blind (h text)) -> blind (try_catch_Exception m h).
Proof.
  intros Hm Hh w1 w2 H. unfold try_catch_Exception.
  destruct (Hm w1 w2 H) as (E & V).
  destruct (m w1) as [[a1|e1] u1], (m w2) as [[a2|e2] u2];
    simpl in E, V; inversion E; subst; [now split|].
  destruct e2; [now apply Hh | now split].
Qed.

End Blind.

Lemma blind_get_pipeline : blind get_pipeline.
Proof.
  intros w1 w2 H. unfold get_pipeline. simpl. destruct H as (P & F).
  split; [now rewrite P | now split].
Qed.

Lemma blind_write_file path data : blind (write_file path data).
Proof.
  intros w1 w2 (P & F). unfold write_file, same_view. simpl.
  split; [reflexivity | split; [exact P | now rewrite F]].
Qed.

Lemma blind_remove path : blind (remove path).
Proof.
  intros w1 w2 (P & F). unfold remove, same_view. simpl.
  split; [reflexivity | split; [exact P | now rewrite F]].
Qed.

Lemma blind_attempt env i path st : blind (attempt env i path st).
Proof.
  unfold attempt.
  apply blind_bind; [apply blind_call | intros created].
  apply blind_bind; [apply blind_get_pipeline | intros engine].
  apply blind_bind; [apply blind_call | intros checked].
  apply blind_bind; [apply blind_call | intros _]. apply blind_ret.
Qed.

Lemma blind_reset env i : blind (reset_pipeline env i).
Proof.
  unfold reset_pipeline, call_setting_init.
  apply blind_bind; [apply blind_get_pipeline | intros engine].
  apply blind_bind; [apply blind_call | intros _].
  apply blind_bind; [apply blind_call | intros fresh].
  intros w1 w2 (P & F). unfold same_view. simpl. now repeat split.
Qed.

Lemma blind_attempts env path n : forall i st,
  blind (attempts env path n i st).
Proof.
  induction n as [|n IH]; intros i st; simpl; [apply blind_ret|].
  apply blind_bind; [apply blind_attempt | intros st1].
  destruct (_stricmp (msg st1) license =? 0)%Z; [|apply blind_ret].
  apply blind_bind; [apply blind_reset | intros _]. apply IH.
Qed.

Lemma blind_process env inv path : blind (process env inv path).
Proof.
  unfold process, respond.
  apply blind_try; [|intros text; apply blind_ret].
  apply blind_bind; [apply blind_attempts | intros st].
  apply blind_bind; [apply blind_call | intros out].
  apply blind_bind; [apply blind_remove | intros _]. apply blind_ret.
Qed.

Lemma blind_stage env inv : blind (stage env inv).
Proof.
  unfold stage.
  apply blind_bind; [|intros data].
  - apply blind_try; [|intros text; apply blind_ret].
    unfold ingest. destruct (base64 inv =? 0)%Z; [apply blind_call|].
    apply blind_bind; [apply blind_call | intros s; apply blind_call].
  - apply blind_bind; [apply blind_write_file | intros _; apply blind_ret].
Qed.

(** X5: a build without NDEBUG never looks at the license: whatever the
    cache holds, the answer, the engine handle and the files that
    [OnProcessProc] leaves are the same. *)
Theorem X5_debug_build_ignores_license env inv w (cache : option ST_RESPONSE) :
  fst (OnProcessProc false env inv (set_license cache w)) =
    fst (OnProcessProc false env inv w) /\
  files (snd (OnProcessProc false env inv (set_license cache w))) =
    files (snd (OnProcessProc false env inv w)) /\
  g_pPipeline (snd (OnProcessProc false env inv (set_license cache w))) =
    g_pPipeline (snd (OnProcessProc false env inv w)).
Proof.
  assert (Hb : blind (let* filePath := stage env inv in
                      process env inv filePath)).
  { apply blind_bind; [apply blind_stage | intros p; apply blind_process]. }
  destruct (Hb (set_license cache w) w) as (E & P & F); [now split|].
  unfold OnProcessProc. simpl. now repeat split.
Qed.

Lemma process_depends_on_locals env inv1 inv2 path :
  initial_locals inv1 = initial_locals inv2 ->
  process env inv1 path = process env inv2 path.
Proof. intros H. unfold process, respond. now rewrite H. Qed.

(** X6: a multipart upload and a base64 upload that carry the same
    bytes are staged as the same file and get the same answer. *)
Theorem X6_same_bytes_same_answer ndebug env inv1 inv2 w data encoded :
  ndebug && no_license w inv1 = false ->
  ndebug && no_license w inv2 = false ->
  base64 inv1 = 0%Z -> base64 inv2 <> 0%Z ->
  clock inv1 = clock inv2 ->
  msg_uninit inv1 = msg_uninit inv2 ->
  result_uninit inv1 = result_uninit inv2 ->
  multipart_fileData env (request_body inv1) = Returns data ->
  json_image env (request_body inv2) = Returns encoded ->
  base64_decode env encoded = Returns data ->
  fst (OnProcessProc ndebug env inv1 w) = fst (OnProcessProc ndebug env inv2 w)
  /\ files (snd (stage env inv1 w)) = files (snd (stage env inv2 w))
  /\ files (snd (stage env inv1 w)) !! filePath_of inv1 = Some data
  /\ files (snd (OnProcessProc ndebug env inv1 w)) =
     files (snd (OnProcessProc ndebug env inv2 w)).
Proof.
  intros G1 G2 M1 M2 Hclock Hmsg Hres Hmulti Hjson Hdec.
  assert (Hpath : filePath_of inv2 = filePath_of inv1)
    by (unfold filePath_of; now rewrite Hclock).
  assert (S1 : stage env inv1 w =
    (Returns (filePath_of inv1),
     snd (write_file (filePath_of inv1) data
            (log_event (EvMultipart (request_body inv1)) w)))).
  { rewrite stage_after_ingest. unfold ingest, call.
    rewrite M1. simpl. now rewrite Hmulti. }
  assert (S2 : stage env inv2 w =
    (Returns (filePath_of inv1),
     snd (write_file (filePath_of inv1) data
            (log_event (EvBase64Decode encoded)
               (log_event (EvJsonImage (request_body inv2)) w))))).
  { rewrite stage_after_ingest. unfold ingest, bind, call.
    apply Z.eqb_neq in M2. rewrite M2, Hjson. simpl.
    now rewrite Hdec, Hpath. }
  rewrite (OnProcessProc_staged _ _ _ _ _ _ G1 S1).
  rewrite (OnProcessProc_staged _ _ _ _ _ _ G2 S2).
  rewrite S1, S2.
  rewrite (process_depends_on_locals env inv1 inv2)
    by (unfold initial_locals; now rewrite Hmsg, Hres).
  match goal with
  | |- fst (process _ _ _ ?u1) = fst (process _ _ _ ?u2) /\ _ =>
      destruct (blind_process env inv2 (filePath_of inv1) u1 u2)
        as (E & _ & F); [now split|]
  end.
  split; [exact E | split; [reflexivity | split; [|exact F]]].
  simpl. apply lookup_insert_eq.
Qed.

Lemma X6_witness :
  fst (OnProcessProc true (Stub.steady 0.5 0.5) (Stub.upload 0 "img")
         Stub.licensed) =
  fst (OnProcessProc true (Stub.steady 0.5 0.5) (Stub.upload 1 "img")
         Stub.licensed).
Proof.
  assert (G : true && no_license Stub.licensed (Stub.upload 1 "img") = false)
    by reflexivity.
  assert (M : base64 (Stub.upload 1 "img") <> 0%Z) by discriminate.
  exact (proj1 (X6_same_bytes_same_answer true (Stub.steady 0.5 0.5)
    (Stub.upload 0 "img") (Stub.upload 1 "img") Stub.licensed "img" "img"
    eq_refl G eq_refl M eq_refl eq_refl eq_refl eq_refl eq_refl eq_refl)).
Defined.

(** ** The shape of the answers *)

Lemma length_c_str (s : string) :
  (String.length (c_str s) <= String.length s)%nat.
Proof.
  induction s as [|c s IH]; simpl; [lia|].
  destruct (is_nul c); simpl; lia.
Qed.

Lemma respond_returns env inv path w r w' :
  respond env inv path w = (Returns r, w') -> exists out, r = json_response out.
Proof.
  unfold respond, bind, call, remove, ret.
  destruct (attempt_loop env path (initial_locals inv) w) as [[st|e] w2];
    [|discriminate]. simpl.
  destruct (stringify env (build_root st)) as [out|e]; [|discriminate].
  intros H. inversion H. now exists out.
Qed.

(** X7: whatever happens, an answer of [OnProcessProc] has one of three
    shapes: the plain text "Please input license." with status 200 (and
    then the world is untouched), a JSON text with status 200, or a
    display text with status 409.  All three carry the same three
    cross-origin headers, and a Content-Length that is set is never
    smaller than the body. *)
Theorem X7_answer_shapes ndebug env inv w r w' :
  OnProcessProc ndebug env inv w = (Returns r, w') ->
  headers r = cors_headers /\
  (status r = 200%Z \/ status r = 409%Z) /\
  ((r = text_response "Please input license." /\ w' = w /\
    ndebug && no_license w inv = true) \/
   (exists out, r = json_response out /\
                ndebug && no_license w inv = false) \/
   (exists text, r = conflict_response text /\
                 ndebug && no_license w inv = false)) /\
  (forall n, contentLength r = Some n -> (String.length (body r) <= n)%nat).
Proof.
  unfold OnProcessProc.
  destruct (ndebug && no_license w inv) eqn:G.
  - unfold OnNoLicense, ret. intros H. inversion H; subst.
    split; [reflexivity|]. split; [now left|].
    split; [left; now repeat split | discriminate].
  - unfold bind. destruct (stage env inv w) as [[path|e] w1]; [|discriminate].
    unfold process, try_catch_Exception.
    destruct (respond env inv path w1) as [[r1|[text|what]] w2] eqn:R;
      [| |discriminate].
    + intros H. inversion H; subst.
      destruct (respond_returns _ _ _ _ _ _ R) as (out & ->).
      split; [reflexivity|]. split; [now left|].
      split; [right; left; now exists out|].
      simpl. intros n Hn. inversion Hn; subst. apply length_c_str.
    + unfold ret. intros H. inversion H; subst.
      split; [reflexivity|]. split; [now right|].
      split; [right; right; now exists text|].
      simpl. intros n Hn. inversion Hn; subst. lia.
Qed.

Lemma X7_witness :
  headers (conflict_response "Cannot stringify") = cors_headers /\
  (status (conflict_response "Cannot stringify") = 200%Z \/
   status (conflict_response "Cannot stringify") = 409%Z).
Proof.
  evaluate (OnProcessProc true Stub.unprintable (Stub.upload 0 "img")
              Stub.licensed) Hrun.
  destruct (X7_answer_shapes _ _ _ _ _ _ Hrun) as (H1 & H2 & _).
  split; [exact H1 | exact H2].
Defined.

(** ** What the handler leaves on disk *)

Lemma ingest_run env inv w :
  files (snd (ingest env inv w)) = files w /\
  exists e t, log (snd (ingest env inv w)) = (log w ++ e :: t)%list /\
              forallb is_engine_call (e :: t) = false /\
              count is_create (e :: t) = 0%nat /\
              count is_image_destroy (e :: t) = 0%nat /\
              count is_check (e :: t) = 0%nat.
Proof.
  unfold ingest, bind, call.
  destruct (base64 inv =? 0)%Z; simpl.
  - split; [reflexivity|]. eexists _, []. now repeat split.
  - destruct (json_image env (request_body inv)) as [s|e]; simpl.
    + split; [reflexivity|]. eexists _, [_].
      rewrite <- app_assoc. now repeat split.
    + split; [reflexivity|]. eexists _, []. now repeat split.
Qed.

Lemma stage_files env inv w p :
  p <> filePath_of inv ->
  files (snd (stage env inv w)) !! p = files w !! p.
Proof.
  intros Hp. rewrite stage_after_ingest.
  destruct (ingest_run env inv w) as (F & _).
  destruct (ingest env inv w) as [[data|[x|x]] w0]; simpl in *;
    rewrite ?lookup_insert_ne by congruence; now rewrite F.
Qed.

Lemma process_files env inv path w :
  files (snd (process env inv path w)) = files w \/
  files (snd (process env inv path w)) = delete path (files w).
Proof.
  destruct (attempts_run env path 2 0%Z (initial_locals inv) w)
    as (t & (_ & _ & _ & S) & _).
  fold (attempt_loop env path (initial_locals inv)) in *.
  destruct (attempt_loop env path (initial_locals inv) w)
    as [[st|e] w2] eqn:Hloop; simpl in S.
  - rewrite (process_after_loop _ _ _ _ _ _ Hloop). simpl.
    destruct (stringify env (build_root st)) as [out|[y|y]]; simpl;
      rewrite S; auto.
  - rewrite (process_after_fault _ _ _ _ _ _
               (respond_after_loop_fault _ _ _ _ _ _ Hloop)).
    left. now destruct e.
Qed.

(** X8: the only file [OnProcessProc] creates, overwrites or removes is
    the temporary file named after the clock reading; every other file
    is as it was, whatever the request and whatever the engine does. *)
Theorem X8_only_the_temporary_file ndebug env inv w (p : string) :
  p <> filePath_of inv ->
  files (snd (OnProcessProc ndebug env inv w)) !! p = files w !! p.
Proof.
  intros Hp. unfold OnProcessProc.
  destruct (ndebug && no_license w inv); [reflexivity|].
  unfold bind. pose proof (stage_files env inv w p Hp) as Hs.
  destruct (stage env inv w) as [[path|e] w1] eqn:Hstage; simpl in Hs;
    [|exact Hs].
  apply stage_path in Hstage. subst path.
  destruct (process_files env inv (filePath_of inv) w1) as [-> | ->];
    [exact Hs|].
  now rewrite lookup_delete_ne by congruence.
Qed.

Lemma X8_witness :
  files (snd (OnProcessProc true Stub.unprintable (Stub.upload 0 "img")
                Stub.licensed)) !! "other.dat" = None.
Proof.
  rewrite (X8_only_the_temporary_file true Stub.unprintable
             (Stub.upload 0 "img") Stub.licensed "other.dat"
             ltac:(discriminate)).
  reflexivity.
Defined.

Lemma respond_cases env inv path w r w' :
  respond env inv path w = (Returns r, w') ->
  exists st w2 out,
    attempt_loop env path (initial_locals inv) w = (Returns st, w2) /\
    stringify env (build_root st) = Returns out /\ r = json_response out.
Proof.
  unfold respond, bind, call, remove, ret.
  destruct (attempt_loop env path (initial_locals inv) w) as [[st|e] w2];
    [|discriminate]. simpl.
  destruct (stringify env (build_root st)) as [out|e] eqn:E; [|discriminate].
  intros H. inversion H. now exists st, w2, out.
Qed.

(** X9: after the file is staged, it is removed exactly when the answer
    is the JSON one with status 200: then one [std::remove] was made and
    the file is gone; with the 409 answer, or when an exception leaves
    the handler, no [std::remove] was made and the file is as staged. *)
Theorem X9_file_removed_iff_json_answer ndebug env inv w path w1 :
  ndebug && no_license w inv = false ->
  stage env inv w = (Returns path, w1) ->
  is_Some (files w1 !! path) /\
  exists t,
    log (snd (OnProcessProc ndebug env inv w)) = (log w1 ++ t)%list /\
    match fst (OnProcessProc ndebug env inv w) with
    | Returns r =>
        if is_json_200 r
        then count (is_remove path) t = 1%nat /\
             files (snd (OnProcessProc ndebug env inv w)) !! path = None
        else count (is_remove path) t = 0%nat /\
             files (snd (OnProcessProc ndebug env inv w)) = files w1
    | Throws _ =>
        count (is_remove path) t = 0%nat /\
        files (snd (OnProcessProc ndebug env inv w)) = files w1
    end.
Proof.
  intros Hgate Hstage. split.
  { rewrite stage_after_ingest in Hstage.
    destruct (ingest env inv w) as [[data|[x|x]] w0]; inversion Hstage;
      subst; simpl; rewrite lookup_insert_eq; eauto. }
  rewrite (OnProcessProc_staged _ _ _ _ _ _ Hgate Hstage).
  destruct (respond env inv path w1) as [[r|e] w2] eqn:R.
  - destruct (respond_cases _ _ _ _ _ _ R) as (st & w' & out & L & O & ->).
    destruct (answered_request_removes_file _ _ _ _ _ _ _ L O)
      as (t & Ht & Hc & Hf).
    exists t. split; [exact Ht|].
    unfold process. rewrite (try_returns _ _ _ _ _ R). simpl.
    unfold process in Hf. rewrite (try_returns _ _ _ _ _ R) in Hf.
    now split.
  - destruct (fault_keeps_file _ _ _ _ _ _ R) as (Hf & t & Ht & Hc).
    exists t. split; [exact Ht|].
    rewrite (process_after_fault _ _ _ _ _ _ R) in *.
    destruct e; simpl in *; now split.
Qed.

Lemma X9_witness :
  files (snd (OnProcessProc true (Stub.steady 0.5 0.5) (Stub.upload 0 "img")
                Stub.licensed)) !! "5output_file.dat" = None.
Proof.
  evaluate (stage (Stub.steady 0.5 0.5) (Stub.upload 0 "img") Stub.licensed)
    Hstage.
  pose proof (fun Hgate =>
    X9_file_removed_iff_json_answer true _ _ _ _ _ Hgate Hstage) as H.
  destruct (H eq_refl) as (_ & t & _ & Hrun).
  evaluate (fst (OnProcessProc true (Stub.steady 0.5 0.5)
                   (Stub.upload 0 "img") Stub.licensed)) Hfst.
  rewrite Hfst in Hrun. exact (proj2 Hrun).
Defined.

(** ** The images of the SDK *)








(** ** The license gate, both ways *)

Lemma stage_logs env inv w :
  exists e t, log (snd (stage env inv w)) = (log w ++ e :: t)%list.
Proof.
  rewrite stage_after_ingest.
  destruct (ingest_run env inv w) as (_ & e & t & L & _).
  destruct (ingest env inv w) as [[data|[x|x]] w0]; simpl in *;
    exists e; eexists; rewrite L, <- ?app_assoc; simpl; reflexivity.
Qed.

(** X11: in a build with NDEBUG a request is worked on (something is
    parsed, staged or sent to the engine) exactly when the cache holds a
    license whose expiry is not before the current time; a license that
    expires at this very second still passes. *)
Theorem X11_processed_iff_license_valid env inv w :
  log (snd (OnProcessProc true env inv w)) <> log w <->
  exists r, lv_pstRes w = Some r /\ (now_c inv <= m_lExpire r)%Z.
Proof.
  unfold OnProcessProc, no_license. simpl. split.
  - destruct (lv_pstRes w) as [r|]; [|intros H; now contradiction H].
    destruct (Z.ltb_spec (m_lExpire r) (now_c inv)) as [Hlt|Hge].
    + intros H. now contradiction H.
    + intros _. exists r. split; [reflexivity | lia].
  - intros (r & -> & Hr).
    destruct (Z.ltb_spec (m_lExpire r) (now_c inv)) as [Hlt|Hge]; [lia|].
    unfold bind. destruct (stage_logs env inv w) as (e & t & L).
    destruct (stage env inv w) as [[path|x] w1]; simpl in L.
    + destruct (process_run env inv path w1) as (t2 & L2 & _).
      rewrite L2, L, <- app_assoc. intros E.
      rewrite <- (app_nil_r (log w)) in E at 2.
      apply app_inv_head in E. discriminate.
    + simpl. rewrite L. intros E.
      rewrite <- (app_nil_r (log w)) in E at 2.
      apply app_inv_head in E. discriminate.
Qed.

(** X12: [OnStatus] prints the cached license as valid without looking
    at the clock.  For a cached license that has expired (at a time not
    before the epoch, so that [localtime_s] takes it) it answers
    "License valid : " and the date (or NO LIMIT), never "License not
    found", while [OnProcessProc] in a build with NDEBUG answers the same
    world with "Please input license.". *)
Theorem X12_status_reports_expired_license_valid date env inv w r :
  lv_pstRes w = Some r -> (0 <= m_lExpire r < now_c inv)%Z ->
  fst (OnProcessProc true env inv w) =
    Returns (text_response "Please input license.") /\
  OnStatus date w =
    (Returns (text_response
                (if (m_lExpire r <? NO_LIMIT)%Z
                 then c_str ("License valid : " +:+ date (m_lExpire r))
                 else "License valid : NO LIMIT")), w) /\
  (forall text, fst (OnStatus date w) = Returns (text_response text) ->
                text <> "License not found").
Proof.
  intros Hc [_ Hexp]. split; [|split].
  - unfold OnProcessProc, no_license. rewrite Hc. simpl.
    apply Z.ltb_lt in Hexp. now rewrite Hexp.
  - unfold OnStatus. now rewrite Hc.
  - unfold OnStatus. rewrite Hc. simpl. intros text H.
    inversion H as [E]. clear H.
    destruct (m_lExpire r <? NO_LIMIT)%Z; [|discriminate].
    lazy. discriminate.
Qed.

Lemma X12_witness :
  fst (OnStatus (fun _ => "1970-01-01") Stub.licensed) =
    Returns (text_response "License valid : 1970-01-01").
Proof.
  destruct (X12_status_reports_expired_license_valid
              (fun _ => "1970-01-01") (Stub.steady 0.5 0.5)
              {| request_body := "img"; base64 := 0; now_c := 2001;
                 clock := TickCount64 5; msg_uninit := "";
                 result_uninit := Stub.scores 0 0 |}
              Stub.licensed {| m_nProduct := 3; m_lExpire := 2000 |}
              eq_refl ltac:(simpl; lia)) as (_ & H & _).
  now rewrite H.
Defined.

(** ** The refresh thread by itself *)

Lemma TF_READ_LIC_snoc lics : forall lic w,
  TF_READ_LIC (lics ++ [lic]) w = TF_READ_LIC_turn lic (TF_READ_LIC lics w).
Proof.
  induction lics as [|l lics IH]; intros lic w; simpl; [reflexivity|].
  apply IH.
Qed.

Lemma TF_READ_LIC_frame lics : forall w,
  log (TF_READ_LIC lics w) =
    (log w ++ flat_map (fun lic => [EvSleep 10000;
                          EvReadLicense (GD_PRODUCT_LIVENESS_FACE lic)]) lics)%list
  /\ files (TF_READ_LIC lics w) = files w
  /\ g_pPipeline (TF_READ_LIC lics w) = g_pPipeline w.
Proof.
  induction lics as [|l lics IH]; intros w; simpl.
  - now rewrite app_nil_r.
  - destruct (IH (TF_READ_LIC_turn l w)) as (L & F & P).
    rewrite L, F, P. unfold TF_READ_LIC_turn. simpl.
    now rewrite <- !app_assoc.
Qed.

(** X13: after any number of turns of the refresh thread the cache is
    what the last read alone left (the record when the read returned
    more than zero, nothing otherwise; what was cached before plays no
    part), each read came after a sleep of ten seconds, and the thread
    touched neither the files nor the engine handle. *)
Theorem X13_cache_follows_last_read lics lic w :
  let p := {| m_nProduct := GD_PRODUCT_LIVENESS_FACE lic; m_lExpire := 0 |} in
  let after := TF_READ_LIC (lics ++ [lic]) w in
  lv_pstRes after =
    (if (fst (mil_read_license lic p) <=? 0)%Z then None
     else Some (snd (mil_read_license lic p))) /\
  log after =
    (log w ++ flat_map (fun lic => [EvSleep 10000;
                          EvReadLicense (GD_PRODUCT_LIVENESS_FACE lic)])
                       (lics ++ [lic]))%list /\
  files after = files w /\ g_pPipeline after = g_pPipeline w.
Proof.
  intros p after. subst p after.
  split; [now rewrite TF_READ_LIC_snoc | apply TF_READ_LIC_frame].
Qed.

(** X14: the refresh thread by itself is safe with its memory, whatever
    the handlers do in between: [free] is only reached with
    [lv_pstRes] NULL or pointing to an allocated block, [memcpy] only
    writes an allocated block, no block other than the one [lv_pstRes]
    points to stays allocated, and between two turns [lv_pstRes] is NULL
    or points to a written record. *)
Theorem X14_refresh_thread_memory lic now_c schedule : forall c,
  Race.writer_safe c -> Race.writer_safe (Race.run lic now_c schedule c).
Proof.
  unfold Race.run.
  induction schedule as [|t schedule IH]; intros c Hc; [exact Hc|].
  simpl. apply IH. clear IH.
  destruct t; [|exact Hc].
  destruct c as [s pc rd]. unfold Race.writer_safe in *.
  unfold Race.step. simpl in *.
  destruct Hc as (I1 & I2 & I3).
  destruct pc; simpl in *.
  - (* WSleep *) split; [exact I1 | split; [exact I2 | exact I3]].
  - (* WRead *)
    destruct (fst _ <=? 0)%Z; simpl; (split; [exact I1|]);
      (split; [exact I2|]); [|exact I3].
    destruct I3 as [H0 | (r & Hr)]; [now left | right].
    unfold Race.allocated. rewrite Hr. eauto.
  - (* WFree *)
    destruct (Nat.eqb_spec (Race.ptr s) 0) as [E|E]; simpl.
    + split; [exact I1|]. split; [exact I2|].
      intros a Ha. destruct (I1 a Ha). congruence.
    + unfold Race.allocated in *. simpl.
      assert (Hnone : forall a,
                ~ is_Some (delete (Race.ptr s) (Race.heap s) !! a)).
      { intros a Ha. destruct (decide (a = Race.ptr s)) as [->|Hne].
        - rewrite lookup_delete_eq in Ha. now destruct Ha.
        - rewrite lookup_delete_ne in Ha by congruence.
          destruct (I1 a Ha). contradiction. }
      split; [intros a Ha; now destruct (Hnone a)|]. now split.
  - (* WNull *)
    unfold Race.allocated, Race.settled in *. simpl.
    split; [intros a Ha; now destruct (I3 a)|].
    split; [lia | now left].
  - (* WAlloc *)
    destruct (Nat.eqb_spec (Race.ptr s) 0) as [E|E]; simpl.
    + unfold Race.allocated in *. simpl.
      split; [|split; [lia | rewrite lookup_insert_eq; eauto]].
      intros a Ha. destruct (decide (a = Race.next s)) as [->|Hne].
      * split; [reflexivity | lia].
      * rewrite lookup_insert_ne in Ha by congruence.
        destruct (I1 a Ha). congruence.
    + split; [exact I1|]. split; [exact I2|].
      destruct I3 as [H0 | (r & Hr)]; [contradiction|].
      unfold Race.allocated. rewrite Hr. eauto.
  - (* WCopy *)
    unfold Race.allocated, Race.settled in *. simpl.
    destruct (I1 _ I3) as (_ & Hnz).
    split; [|split; [exact I2 | right; rewrite lookup_insert_eq; eauto]].
    intros a Ha. destruct (decide (a = Race.ptr s)) as [->|Hne].
    * now split.
    * rewrite lookup_insert_ne in Ha by congruence. exact (I1 a Ha).
Qed.

Lemma X14_witness :
  Race.writer_safe
    (Race.run (Stub.store 1 5000) 1000
       [Race.Writer; Race.Reader; Race.Writer; Race.Writer; Race.Writer]
       Stub.empty_cache).
Proof.
  apply X14_refresh_thread_memory.
  unfold Race.writer_safe, Race.allocated, Race.settled. simpl.
  split; [|split; [lia | now left]].
  intros a Ha. rewrite lookup_empty in Ha. now destruct Ha.
Defined.

(** ** The name of the temporary file *)

Lemma getMilliseconds_range (c : Clock) :
  (0 <= getMilliseconds c < 2 ^ 64)%Z.
Proof. destruct c; unfold getMilliseconds, uint64; apply Z.mod_pos_bound; lia. Qed.

Lemma to_string_inj (x y : Z) :
  (0 <= x)%Z -> (0 <= y)%Z -> to_string x = to_string y -> x = y.
Proof.
  unfold to_string. intros Hx Hy H.
  assert (Hu : N.to_uint (Z.to_N x) = N.to_uint (Z.to_N y)).
  { pose proof (NilEmpty.usu (N.to_uint (Z.to_N x))) as Ex.
    pose proof (NilEmpty.usu (N.to_uint (Z.to_N y))) as Ey.
    rewrite H in Ex. rewrite Ex in Ey. now inversion Ey. }
  apply (f_equal N.of_uint) in Hu.
  rewrite !DecimalN.Unsigned.of_to in Hu. lia.
Qed.

Lemma append_cancel_r (suffix : string) : forall a b,
  String.append a suffix = String.append b suffix -> a = b.
Proof.
  assert (Hlen : forall a b, String.append a suffix = String.append b suffix ->
                             String.length a = String.length b).
  { intros a b H. apply (f_equal String.length) in H.
    rewrite !length_append in H. lia. }
  induction a as [|x a IH]; intros [|y b] H; try reflexivity;
    try (apply Hlen in H; discriminate).
  rewrite !append_cons in H. inversion H; subst. f_equal. now apply IH.
Qed.

Lemma filePath_of_eq_iff inv1 inv2 :
  filePath_of inv1 = filePath_of inv2 <->
  getMilliseconds (clock inv1) = getMilliseconds (clock inv2).
Proof.
  unfold filePath_of. split.
  - intros H. apply append_cancel_r in H.
    apply to_string_inj in H; [exact H | |];
      apply getMilliseconds_range.
  - now intros ->.
Qed.

(** X15: two requests get the same temporary file exactly when
    [getMilliseconds] gave them the same value: the name tells the
    readings apart, and requests that start within the same millisecond
    share one file. *)
Theorem X15_same_file_iff_same_millisecond inv1 inv2 :
  filePath_of inv1 = filePath_of inv2 <->
  getMilliseconds (clock inv1) = getMilliseconds (clock inv2).
Proof. apply filePath_of_eq_iff. Qed.

Lemma process_json_answer env inv path w r w' :
  process env inv path w = (Returns r, w') -> is_json_200 r = true ->
  respond env inv path w = (Returns r, w').
Proof.
  unfold process, try_catch_Exception.
  destruct (respond env inv path w) as [[r1|[text|what]] w2];
    intros H Hj; inversion H; subst; [reflexivity | discriminate].
Qed.

(** X16: what sharing the file does.  When a second request is staged
    in the same millisecond as a first one before the first is answered,
    the file that held the bytes of the first now holds the bytes of the
    second, put there by the write that ends the second staging; and when
    the first request then gets its JSON answer, its [std::remove] takes
    away the file the second request is about to hand to the engine. *)
Theorem X16_same_millisecond_requests_collide
    env1 env2 inv1 inv2 w data1 data2 p1 w1 p2 w2 r w3 :
  getMilliseconds (clock inv1) = getMilliseconds (clock inv2) ->
  fst (ingest env1 inv1 w) = Returns data1 ->
  stage env1 inv1 w = (Returns p1, w1) ->
  fst (ingest env2 inv2 w1) = Returns data2 ->
  stage env2 inv2 w1 = (Returns p2, w2) ->
  process env1 inv1 p1 w2 = (Returns r, w3) ->
  is_json_200 r = true ->
  p2 = p1 /\
  files w1 !! p1 = Some data1 /\
  files w2 !! p1 = Some data2 /\
  files w2 = <[p1 := data2]> (files w1) /\
  (exists t, log w2 = (log w1 ++ t ++ [EvWriteFile p1 data2])%list) /\
  files w3 !! p1 = None.
Proof.
  intros Hms I1 S1 I2 S2 Hp Hj.
  pose proof (stage_path _ _ _ _ _ S1) as E1.
  pose proof (stage_path _ _ _ _ _ S2) as E2.
  assert (E : p2 = p1) by (subst; symmetry; now apply filePath_of_eq_iff).
  split; [exact E|].
  assert (F1 : files w1 !! p1 = Some data1).
  { rewrite stage_after_ingest in S1.
    destruct (ingest env1 inv1 w) as [o w0]. simpl in I1. subst o.
    inversion S1. simpl. apply lookup_insert_eq. }
  assert (F2 : files w2 = <[p1 := data2]> (files w1) /\
               exists t, log w2 = (log w1 ++ t ++ [EvWriteFile p1 data2])%list).
  { rewrite stage_after_ingest in S2.
    destruct (ingest_run env2 inv2 w1) as (F & e & t & L & _).
    destruct (ingest env2 inv2 w1) as [o w0]. simpl in I2, F, L. subst o.
    inversion S2 as [[Hpath Hw]]. simpl. rewrite Hpath, E, F.
    split; [reflexivity|]. exists (e :: t). rewrite L.
    now rewrite <- app_assoc. }
  destruct F2 as (F2 & L2).
  split; [exact F1 | split; [|split; [exact F2 | split; [exact L2|]]]].
  - rewrite F2. apply lookup_insert_eq.
  - pose proof (process_json_answer _ _ _ _ _ _ Hp Hj) as R.
    destruct (respond_cases _ _ _ _ _ _ R) as (st & u & out & L & O & _).
    destruct (answered_request_removes_file _ _ _ _ _ _ _ L O)
      as (_ & _ & _ & Hf).
    now rewrite Hp in Hf.
Qed.

Lemma X16_witness :
  exists w1 w2 w3,
    stage (Stub.steady 0.5 0.5) (Stub.upload 0 "first") Stub.licensed =
      (Returns "5output_file.dat", w1) /\
    stage Stub.no_face (Stub.upload 0 "second") w1 =
      (Returns "5output_file.dat", w2) /\
    process (Stub.steady 0.5 0.5) (Stub.upload 0 "first")
      "5output_file.dat" w2 = (Returns (json_response "{}"), w3) /\
    files w1 !! "5output_file.dat" = Some "first" /\
    files w2 !! "5output_file.dat" = Some "second" /\
    files w3 !! "5output_file.dat" = None.
Proof.
  evaluate (stage (Stub.steady 0.5 0.5) (Stub.upload 0 "first")
              Stub.licensed) S1.
  match type of S1 with _ = (_, ?w1) =>
    evaluate (stage Stub.no_face (Stub.upload 0 "second") w1) S2
  end.
  match type of S2 with _ = (_, ?w2) =>
    evaluate (process (Stub.steady 0.5 0.5) (Stub.upload 0 "first")
                "5output_file.dat" w2) P
  end.
  match type of P with _ = (_, ?w3) =>
    match type of S2 with _ = (_, ?w2) =>
      match type of S1 with _ = (_, ?w1) => exists w1, w2, w3
      end
    end
  end.
  split; [exact S1 | split; [exact S2 | split; [exact P|]]].
  pose proof (fun Hms I1 I2 Hj =>
    X16_same_millisecond_requests_collide
      _ _ _ _ _ "first" "second" _ _ _ _ _ _ Hms I1 S1 I2 S2 P Hj) as H.
  destruct (H eq_refl eq_refl eq_refl eq_refl)
    as (_ & F1 & F2 & _ & _ & F3).
  split; [exact F1 | split; [exact F2 | exact F3]].
Defined.

(** ** The order of the calls *)

(** X17: on the path that ends in the JSON answer the calls come in one
    order: first the parser (or the decoder), then the file is written,
    then engine calls and nothing else, during which the file stays as
    written, then the stringifier, and [std::remove] last. *)
Theorem X17_order_of_calls ndebug env inv w path w1 st w2 out :
  ndebug && no_license w inv = false ->
  stage env inv w = (Returns path, w1) ->
  attempt_loop env path (initial_locals inv) w1 = (Returns st, w2) ->
  stringify env (build_root st) = Returns out ->
  exists parsed data engine_calls,
    log (snd (OnProcessProc ndebug env inv w)) =
      (log w ++ parsed ++ [EvWriteFile path data] ++ engine_calls ++
       [EvStringify (build_root st); EvRemove path])%list /\
    count is_engine_call parsed = 0%nat /\ parsed <> [] /\
    forallb is_engine_call engine_calls = true /\
    files w1 !! path = Some data /\ files w2 = files w1.
Proof.
  intros Hgate Hstage Hloop Hout.
  destruct (attempts_run env path 2 0%Z (initial_locals inv) w1)
    as (t & (L & F & _ & S) & _).
  fold (attempt_loop env path (initial_locals inv)) in *.
  rewrite Hloop in *. simpl in L, S.
  rewrite (OnProcessProc_staged _ _ _ _ _ _ Hgate Hstage).
  rewrite (process_after_loop _ _ _ _ _ _ Hloop), Hout. simpl.
  pose proof (stage_path _ _ _ _ _ Hstage) as ->.
  rewrite stage_after_ingest in Hstage.
  destruct (ingest_run env inv w) as (_ & e & t0 & L0 & _ & C0 & _).
  assert (Hparsed : count is_engine_call (e :: t0) = 0%nat).
  { clear - L0. revert L0. unfold ingest, bind, call.
    destruct (base64 inv =? 0)%Z; simpl.
    - intros H. apply app_inv_head in H. inversion H; subst. reflexivity.
    - destruct (json_image env (request_body inv)); simpl; intros H;
        rewrite <- ?app_assoc in H; apply app_inv_head in H;
        inversion H; subst; reflexivity. }
  destruct (ingest env inv w) as [[data|[x|x]] w0]; inversion Hstage; subst;
    simpl in *.
  - exists (e :: t0), data, t. rewrite L, L0, <- !app_assoc. simpl.
    rewrite lookup_insert_eq. now repeat split.
  - exists (e :: t0), "", t. rewrite L, L0, <- !app_assoc. simpl.
    rewrite lookup_insert_eq. now repeat split.
Qed.

Lemma X17_witness :
  exists parsed data engine_calls rest,
    log (snd (OnProcessProc true Stub.recovering (Stub.upload 1 "aW1n")
                Stub.licensed)) =
      (parsed ++ [EvWriteFile "5output_file.dat" data] ++ engine_calls ++
       rest)%list /\
    count is_engine_call parsed = 0%nat /\
    forallb is_engine_call engine_calls = true /\
    length rest = 2%nat.
Proof.
  evaluate (stage Stub.recovering (Stub.upload 1 "aW1n") Stub.licensed) Hstage.
  match type of Hstage with _ = (Returns ?path, ?w1) =>
    evaluate (attempt_loop Stub.recovering path
                (initial_locals (Stub.upload 1 "aW1n")) w1) Hloop
  end.
  match type of Hloop with _ = (Returns ?st, _) =>
    evaluate (stringify Stub.recovering (build_root st)) Hout
  end.
  pose proof (fun Hgate =>
    X17_order_of_calls true _ _ _ _ _ _ _ _ Hgate Hstage Hloop Hout) as H.
  destruct (H eq_refl) as (parsed & data & calls & L & P & _ & E & _).
  exists parsed, data, calls. eexists. split; [exact L|].
  split; [exact P|]. split; [exact E|reflexivity].
Defined.

(** ** Line breaks in the base64 string *)

Section Base64DecoderFacts.

Import Base64Decoder.

Lemma decode_step buf :
  decode buf =
    match readFromDevice buf with
    | Eof => Returns ""
    | DataFormat => Throws (PocoException "Bad data format")
    | Group group rest =>
        match decode rest with
        | Returns bytes => Returns (String.append group bytes)
        | Throws e => Throws e
        end
    end.
Proof.
  funelim (decode buf).
  - now rewrite e.
  - now rewrite e.
  - now rewrite H, Heq.
  - now rewrite H, Heq.
Qed.

Lemma readOne_shorter : forall buf c rest,
  readOne buf = (Some c, rest) ->
  (String.length rest < String.length buf)%nat.
Proof.
  induction buf as [|ch buf IH]; simpl; [discriminate|].
  destruct (skipped ch); intros c rest E.
  - apply IH in E. lia.
  - inversion E; subst. lia.
Qed.

Lemma readFromDevice_shorter buf group rest :
  readFromDevice buf = Group group rest ->
  (String.length rest < String.length buf)%nat.
Proof.
  unfold readFromDevice.
  destruct (readOne buf) as [[b0|] r0] eqn:E0; [|discriminate].
  destruct (IN_ENCODING b0 =? 255)%Z; [discriminate|].
  destruct (readOne r0) as [[b1|] r1] eqn:E1; [|discriminate].
  destruct (IN_ENCODING b1 =? 255)%Z; [discriminate|].
  destruct (readOne r1) as [[b2|] r2] eqn:E2; [|discriminate].
  destruct (IN_ENCODING b2 =? 255)%Z; [discriminate|].
  destruct (readOne r2) as [[b3|] r3] eqn:E3; [|discriminate].
  destruct (IN_ENCODING b3 =? 255)%Z; [discriminate|].
  intros H. inversion H; subst.
  apply readOne_shorter in E0, E1, E2, E3. lia.
Qed.

(** [readOne] on the input without the skipped characters reads the same
    character. *)
Lemma readOne_symbols : forall buf,
  readOne (symbols buf) = (fst (readOne buf), symbols (snd (readOne buf))).
Proof.
  induction buf as [|ch buf IH]; simpl; [reflexivity|].
  destruct (skipped ch) eqn:S; [exact IH|].
  simpl. now rewrite S.
Qed.

Lemma readFromDevice_symbols buf :
  readFromDevice (symbols buf) =
    match readFromDevice buf with
    | Group group rest => Group group (symbols rest)
    | other => other
    end.
Proof.
  unfold readFromDevice.
  rewrite readOne_symbols.
  destruct (readOne buf) as [[b0|] r0]; simpl; [|reflexivity].
  destruct (IN_ENCODING b0 =? 255)%Z; [reflexivity|].
  rewrite readOne_symbols.
  destruct (readOne r0) as [[b1|] r1]; simpl; [|reflexivity].
  destruct (IN_ENCODING b1 =? 255)%Z; [reflexivity|].
  rewrite readOne_symbols.
  destruct (readOne r1) as [[b2|] r2]; simpl; [|reflexivity].
  destruct (IN_ENCODING b2 =? 255)%Z; [reflexivity|].
  rewrite readOne_symbols.
  destruct (readOne r2) as [[b3|] r3]; simpl; [|reflexivity].
  destruct (IN_ENCODING b3 =? 255)%Z; reflexivity.
Qed.

(** The decoder sees its input only through [readOne]: the skipped
    characters play no part in what it returns. *)
Lemma decode_symbols : forall n buf,
  (String.length buf <= n)%nat -> decode (symbols buf) = decode buf.
Proof.
  induction n as [|n IH]; intros buf Hn.
  - destruct buf; [reflexivity | simpl in Hn; lia].
  - rewrite (decode_step buf), (decode_step (symbols buf)).
    rewrite readFromDevice_symbols.
    destruct (readFromDevice buf) as [| |group rest] eqn:R; try reflexivity.
    apply readFromDevice_shorter in R.
    rewrite IH by lia. reflexivity.
Qed.

Lemma symbols_substitute : forall fuel s,
  symbols (substitute fuel s CRLF "") = symbols s.
Proof.
  induction fuel as [|fuel IH]; intros s; [reflexivity|].
  rewrite substitute_step.
  destruct (String.prefix CRLF s) eqn:P.
  - rewrite append_nil_l, IH.
    rewrite (prefix_drop CRLF s P) at 2. reflexivity.
  - destruct s as [|c s]; [reflexivity|]. simpl. now rewrite IH.
Qed.

(** Taking the CRLF pairs out with [replaceAll] leaves the decoder the
    same characters to read. *)
Lemma decode_replaceAll (encoded : string) :
  exists stripped,
    replaceAll encoded CRLF "" = Some stripped /\
    symbols stripped = symbols encoded /\
    decode stripped = decode encoded.
Proof.
  exists (substitute (String.length encoded) encoded CRLF "").
  assert (HS := symbols_substitute (String.length encoded) encoded).
  split; [|split].
  - unfold replaceAll.
    apply (replaceAll_loop_substitute CRLF "" ltac:(discriminate) _ ""
             encoded). lia.
  - exact HS.
  - rewrite <- (decode_symbols _ _ (le_n _)), HS.
    apply (decode_symbols _ _ (le_n _)).
Qed.

End Base64DecoderFacts.

(** C5: in the base64 mode a string with CRLF pairs in it gives the same
    bytes as the string with the pairs taken out by [replaceAll].  The
    handler hands the string to the decoder as it was extracted; it is the
    decoder that passes over CR and LF (and blank and tab) while it reads.
    So for every string: [replaceAll] returns the stripped string, the
    decoder returns the same for both (the same bytes, or the same
    exception), a request that carries the one and a request that carries
    the other are staged as the same file, and when the string decodes,
    the file holds the decoded bytes. *)
Theorem C5_line_breaks_do_not_change_the_bytes env inv w encoded :
  base64_decode env = Base64Decoder.decode ->
  base64 inv <> 0%Z ->
  json_image env (request_body inv) = Returns encoded ->
  exists stripped,
    replaceAll encoded CRLF "" = Some stripped /\
    Base64Decoder.decode encoded = Base64Decoder.decode stripped /\
    (forall bytes,
        Base64Decoder.decode encoded = Returns bytes ->
        files (snd (stage env inv w)) !! filePath_of inv = Some bytes) /\
    forall inv',
      base64 inv' <> 0%Z -> clock inv' = clock inv ->
      json_image env (request_body inv') = Returns stripped ->
      fst (stage env inv w) = fst (stage env inv' w) /\
      files (snd (stage env inv w)) = files (snd (stage env inv' w)).
Proof.
  intros Hdec Hmode Hjson.
  destruct (decode_replaceAll encoded) as (stripped & Hr & _ & Hd).
  exists stripped. split; [exact Hr | split; [now symmetry | split]].
  - intros bytes Hb.
    destruct (field_reaches_decoder_unchanged env inv w encoded Hmode Hjson)
      as (Hi & _).
    rewrite stage_after_ingest, Hi, Hdec, Hb. simpl.
    apply lookup_insert_eq.
  - intros inv' Hmode' Hclock Hjson'.
    destruct (field_reaches_decoder_unchanged env inv w encoded Hmode Hjson)
      as (_ & _ & H).
    apply (H inv' stripped Hmode' Hclock Hjson' Hr).
    rewrite Hdec. now symmetry.
Qed.

Lemma C5_witness :
  replaceAll Stub.wrapped CRLF "" = Some "QUJDREVG" /\
  Base64Decoder.decode Stub.wrapped = Returns "ABCDEF" /\
  Base64Decoder.decode "QUJDREVG" = Returns "ABCDEF" /\
  files (snd (stage Stub.decoding (Stub.upload 1 Stub.wrapped)
                Stub.licensed)) !! "5output_file.dat" = Some "ABCDEF" /\
  files (snd (stage Stub.decoding (Stub.upload 1 Stub.wrapped)
                Stub.licensed)) =
    files (snd (stage Stub.decoding (Stub.upload 1 "QUJDREVG")
                  Stub.licensed)).
Proof.
  destruct (C5_line_breaks_do_not_change_the_bytes
              Stub.decoding (Stub.upload 1 Stub.wrapped) Stub.licensed
              Stub.wrapped eq_refl ltac:(discriminate) eq_refl)
    as (stripped & Hr & Hd & Hf & Hs).
  assert (E : replaceAll Stub.wrapped CRLF "" = Some "QUJDREVG")
    by (vm_compute; reflexivity).
  assert (D : Base64Decoder.decode Stub.wrapped = Returns "ABCDEF")
    by (vm_compute; reflexivity).
  rewrite E in Hr. inversion Hr; subst stripped.
  split; [exact E | split; [exact D | split; [now rewrite <- Hd|]]].
  split; [exact (Hf _ D)|].
  exact (proj2 (Hs (Stub.upload 1 "QUJDREVG") ltac:(discriminate)
                  eq_refl eq_refl)).
Defined.
